(** * redis_cache.client: a shallow embedding of the cache clients

    The Python module [redis_cache/client.py] defines [DefaultClient], the
    facade over one Redis connection, and [ShardClient], which picks a
    connection per key through a hash ring.  This file embeds the methods
    of both classes as functions over an explicit state (the client
    object and the Redis connections it talks to) in a state-and-exception
    monad, and proves properties of them. *)

From Stdlib Require Import ZArith Ascii String List Lia Bool.
From stdpp Require Import base option gmap strings list pretty.

Local Open Scope Z_scope.

(** ** Python values and exceptions *)

(** The Python values that flow through the client: option values,
    cached values, the server setting. *)
Inductive pyval :=
| PyNone
| PyBool (b : bool)
| PyInt (n : Z)
| PyStr (s : string).

(** Truth value of an object, as used by [if not x]. *)
Definition truthy (v : pyval) : bool :=
  match v with
  | PyNone => false
  | PyBool b => b
  | PyInt n => negb (n =? 0)
  | PyStr s => negb (String.eqb s "")
  end.

(** A connection is a [Redis] object; the model names it by a number. *)
Definition conn_id := nat.

(** The exceptions the module raises or lets through. *)
Inductive exn :=
| ImproperlyConfigured (msg : string)
| ConnectionError
| ConnectionInterrumped (connection : conn_id)
| ValueError (msg : string)
| TypeError
| NameError (name : string)
| AttributeError (attr : string)
| KeyError (key : string)
| UnpicklingError.

(** Result of a pure computation that may raise. *)
Inductive result (A : Type) :=
| Ok (a : A)
| Err (e : exn).
Arguments Ok {A} a.
Arguments Err {A} e.

(** ** The regular expression of [ShardClient._findhash]

    The pattern compiled there (with the flag [re.I]) reads: any
    characters, an opening brace, a capturing group of any characters, a
    closing brace, any characters.  It is a sequence of greedy
    any-character stars, literal braces and one capturing group.  [re_item] is that
    fragment of the pattern language and [re_match] is the backtracking
    matcher of [pattern.match(s)]: anchored at the start of the string,
    greedy, [.] matching every character but the line feed.  The flag
    [re.I] only affects letters, and the pattern has none. *)
Inductive re_item :=
| AnyStar
| Lit (c : ascii)
| GroupOpen
| GroupClose.

Definition is_newline (c : ascii) : bool := Ascii.eqb c "010"%char.

(** [re_match p s start stop]: match the items [p] against [s]; [start]
    and [stop] are the rests of the input where the group was opened and
    closed.  The result is the text of the group of a successful match. *)
Fixpoint re_match (p : list re_item) : string -> string -> string -> option string :=
  match p with
  | [] => fun s start stop =>
      Some (String.substring 0 (String.length start - String.length stop) start)
  | AnyStar :: p' =>
      fix star (s start stop : string) {struct s} : option string :=
        match s with
        | EmptyString => re_match p' s start stop
        | String c s' =>
            if is_newline c then re_match p' s start stop
            else match star s' start stop with
                 | Some g => Some g
                 | None => re_match p' s start stop
                 end
        end
  | Lit c :: p' => fun s start stop =>
      match s with
      | EmptyString => None
      | String c' s' => if Ascii.eqb c c' then re_match p' s' start stop else None
      end
  | GroupOpen :: p' => fun s _ stop => re_match p' s s stop
  | GroupClose :: p' => fun s start _ => re_match p' s start s
  end.

(** The compiled pattern [_findhash], item by item. *)
Definition _findhash : list re_item :=
  [AnyStar; Lit "{"%char; GroupOpen; AnyStar; GroupClose; Lit "}"%char; AnyStar].

(** [_findhash.match(key)]: [None] when there is no match, else
    [g.groups()[0]] (the pattern has exactly one group). *)
Definition findhash_match (key : string) : option string :=
  re_match _findhash key "" "".

(** The string handed to [self._ring.get_node] by [get_server_name]. *)
Definition hashed_key (key : string) : string :=
  match findhash_match key with
  | Some g => g
  | None => key
  end.

(** The hash tag as the specification words it: the text inside the first
    pair of braces, that is, between the first opening brace and the
    first closing brace after it. *)
Fixpoint text_before_close (s : string) : option string :=
  match s with
  | EmptyString => None
  | String c s' =>
      if Ascii.eqb c "}"%char then Some EmptyString
      else String c <$> text_before_close s'
  end.

Fixpoint first_hash_tag (s : string) : option string :=
  match s with
  | EmptyString => None
  | String c s' =>
      if Ascii.eqb c "{"%char then text_before_close s' else first_hash_tag s'
  end.

(** [occurs c s]: the character [c] occurs in [s]. *)
Fixpoint occurs (c : ascii) (s : string) : Prop :=
  match s with
  | EmptyString => False
  | String c' s' => c = c' \/ occurs c s'
  end.

(** [no_tag s]: no opening brace of [s] has a closing brace after it. *)
Fixpoint no_tag (s : string) : Prop :=
  match s with
  | EmptyString => True
  | String c s' => (c = "{"%char -> ~ occurs "}"%char s') /\ no_tag s'
  end.

(** [first_line s]: the text of [s] before its first line feed, all of
    [s] when it has none; [after_first_line s] is the rest, from that
    line feed on.  The stars of the pattern never pass a line feed. *)
Fixpoint first_line (s : string) : string :=
  match s with
  | EmptyString => EmptyString
  | String c s' => if is_newline c then EmptyString else String c (first_line s')
  end.

Fixpoint after_first_line (s : string) : string :=
  match s with
  | EmptyString => EmptyString
  | String c s' => if is_newline c then s else after_first_line s'
  end.

(** ** Python builtins used by the module *)

(** [s.split(sep)] for a one-character separator. *)
Fixpoint split (sep : ascii) (s : string) : list string :=
  match s with
  | EmptyString => [EmptyString]
  | String c s' =>
      if Ascii.eqb c sep then EmptyString :: split sep s'
      else match split sep s' with
           | h :: t => String c h :: t
           | [] => [String c EmptyString]
           end
  end.

Fixpoint lstrip (s : string) : string :=
  match s with
  | String c s' => if Ascii.is_space c then lstrip s' else s
  | EmptyString => EmptyString
  end.

Fixpoint rstrip (s : string) : string :=
  match s with
  | String c s' =>
      match rstrip s' with
      | EmptyString => if Ascii.is_space c then EmptyString else String c EmptyString
      | r => String c r
      end
  | EmptyString => EmptyString
  end.

Fixpoint digits (s : string) (acc : Z) : option Z :=
  match s with
  | EmptyString => Some acc
  | String c s' =>
      match Ascii.is_nat c with
      | Some d => digits s' (10 * acc + Z.of_nat d)
      | None => None
      end
  end.

Definition nonempty_digits (s : string) : option Z :=
  match s with
  | EmptyString => None
  | _ => digits s 0
  end.

(** [int(s)] on a string: surrounding white space, an optional sign and
    at least one decimal digit. *)
Definition int_of_string (s : string) : option Z :=
  match rstrip (lstrip s) with
  | String "+"%char r => nonempty_digits r
  | String "-"%char r => Z.opp <$> nonempty_digits r
  | r => nonempty_digits r
  end.

(** [int(v)]: [ValueError] on a string that is no integer literal,
    [TypeError] on [None]. *)
Definition int (v : pyval) : result Z :=
  match v with
  | PyNone => Err TypeError
  | PyBool b => Ok (if b then 1 else 0)
  | PyInt n => Ok n
  | PyStr s =>
      match int_of_string s with
      | Some n => Ok n
      | None => Err (ValueError "invalid literal for int()")
      end
  end.

(** [v + delta] and [v - delta] with an integer [delta]. *)
Definition py_add (v : pyval) (delta : Z) : result pyval :=
  match v with
  | PyInt n => Ok (PyInt (n + delta))
  | PyBool b => Ok (PyInt ((if b then 1 else 0) + delta))
  | PyNone | PyStr _ => Err TypeError
  end.

Definition py_sub (v : pyval) (delta : Z) : result pyval :=
  match v with
  | PyInt n => Ok (PyInt (n - delta))
  | PyBool b => Ok (PyInt ((if b then 1 else 0) - delta))
  | PyNone | PyStr _ => Err TypeError
  end.

(** ** Redis connections

    A connection holds the keys of one database, each with its value
    (the pickled bytes) and its remaining time to live in seconds
    ([None]: the key does not expire).  [log] records the commands the
    client issued on it, oldest first.  [fail_in] schedules a transport
    failure: [Some n] lets [n] more commands through and then every
    command raises [ConnectionError]; [None] is a connection that stays
    up. *)
Record entry := { value : string; expiry : option Z }.

Inductive command :=
| GET (k : string)
| SET (k v : string)
| SETEX (k v : string) (time : Z)
| DEL (ks : list string)
| EXISTS (k : string)
| TTL (k : string)
| MGET (ks : list string)
| FLUSHDB.

Record conn := {
  data : gmap string entry;
  log : list command;
  fail_in : option nat;
  closed : bool
}.

Global Instance conn_inhabited : Inhabited conn :=
  populate {| data := ∅; log := []; fail_in := None; closed := false |}.

(** ** What the module imports

    The cache backend ([self._backend], an object of the Django cache
    framework) supplies the default timeout, the default version and the
    function that builds a versioned key. *)
Record backend := {
  default_timeout : Z;
  backend_version : Z;
  backend_make_key : string -> option Z -> string
}.

(** [HashRing] of [hash_ring.py], used through [get_node] only. *)
Record hash_ring := { get_node : string -> string }.

(** The imported names the methods call: the pickle codec, the
    [original_key] method of [util.CacheKey], the constructor
    [Redis(connection_pool=ConnectionPool(...))] (the connection for a
    host, a port or socket path, a database number and a password) and
    the constructor [HashRing(nodes)]. *)
Class imports := {
  pickle_dumps : pyval -> Z -> string;
  pickle_loads : string -> result pyval;
  original_key : string -> string;
  Redis : string -> pyval -> Z -> pyval -> conn_id;
  HashRing : list string -> hash_ring
}.

(** A key argument is a user key or an already built [CacheKey], which
    wraps the versioned key; [str] is [str(key)]. *)
Inductive key :=
| Raw (s : string)
| CacheKey (s : string).

Definition str (k : key) : string :=
  match k with
  | Raw s => s
  | CacheKey s => s
  end.

Global Instance key_eq_dec : EqDecision key.
Proof. solve_decision. Defined.

(** The [params] dictionary; only its entry [OPTIONS] is read. *)
Record params := { OPTIONS : option (gmap string pyval) }.

(** ** The client object

    One record for the instances of [DefaultClient] and of its subclass
    [ShardClient].  An attribute that an instance may lack is an option:
    reading it while it is [None] raises [AttributeError]. *)
Record object := {
  _pickle_version : Z;
  _backend : backend;
  _server : pyval;
  _params : params;
  _options : gmap string pyval;
  _client : option conn_id;
  _nodes : option (list string);
  _serverdict : option (gmap string conn_id);
  _ring : option hash_ring
}.

Definition set_pickle_version (n : Z) (o : object) : object :=
  {| _pickle_version := n; _backend := _backend o; _server := _server o;
     _params := _params o; _options := _options o; _client := _client o;
     _nodes := _nodes o; _serverdict := _serverdict o; _ring := _ring o |}.

Definition set_client (c : option conn_id) (o : object) : object :=
  {| _pickle_version := _pickle_version o; _backend := _backend o;
     _server := _server o; _params := _params o; _options := _options o;
     _client := c; _nodes := _nodes o; _serverdict := _serverdict o;
     _ring := _ring o |}.

Definition set_ring (r : hash_ring) (o : object) : object :=
  {| _pickle_version := _pickle_version o; _backend := _backend o;
     _server := _server o; _params := _params o; _options := _options o;
     _client := _client o; _nodes := _nodes o; _serverdict := _serverdict o;
     _ring := Some r |}.

(** ** State and exceptions

    A method runs on the client object and the connections, and either
    returns a value or raises; in both cases the state it leaves is
    kept, so that writes done before an exception stay visible. *)
Record state := { self : object; redis : gmap conn_id conn }.

Inductive outcome (A : Type) :=
| Return (a : A) (st : state)
| Raise (e : exn) (st : state).
Arguments Return {A} a st.
Arguments Raise {A} e st.

Definition M (A : Type) := state -> outcome A.

Definition ret {A} (a : A) : M A := fun st => Return a st.

Definition raise {A} (e : exn) : M A := fun st => Raise e st.

Definition bind {A B} (m : M A) (k : A -> M B) : M B :=
  fun st =>
    match m st with
    | Return a st' => k a st'
    | Raise e st' => Raise e st'
    end.

Notation "x <- m ;; k" := (bind m (fun x => k))
  (at level 100, m at next level, right associativity).
Notation "m ;;; k" := (bind m (fun _ => k))
  (at level 100, right associativity).

Definition lift {A} (r : result A) : M A :=
  match r with
  | Ok a => ret a
  | Err e => raise e
  end.

Definition get_self : M object := fun st => Return (self st) st.

Definition put_self (o : object) : M unit :=
  fun st => Return tt {| self := o; redis := redis st |}.

(** [try: m except ConnectionError: raise ConnectionInterrumped(connection=client)] *)
Definition interrumped {A} (client : conn_id) (m : M A) : M A :=
  fun st =>
    match m st with
    | Raise ConnectionError st' => Raise (ConnectionInterrumped client) st'
    | o => o
    end.

(** The state after connection [c] has served the command [cmd] and its
    database has become [d]. *)
Definition commit (c : conn_id) (cmd : command) (d : gmap string entry)
    (st : state) : state :=
  let cn := redis st !!! c in
  {| self := self st;
     redis := <[c := {| data := d; log := log cn ++ [cmd];
                        fail_in := Nat.pred <$> fail_in cn;
                        closed := closed cn |}]> (redis st) |}.

(** One command on connection [c]: it raises [ConnectionError] when the
    transport is down, else it is logged and [reply] gives the answer
    and the new contents of the database. *)
Definition run_command {A} (c : conn_id) (cmd : command)
    (reply : gmap string entry -> A * gmap string entry) : M A :=
  fun st =>
    match fail_in (redis st !!! c) with
    | Some O => Raise ConnectionError st
    | _ =>
        let '(a, d) := reply (data (redis st !!! c)) in
        Return a (commit c cmd d st)
    end.

(** The methods of [redis.Redis] the client calls.  [ttl] answers [None]
    for a key without expiry and for a missing key. *)
Module Conn.

Definition get (c : conn_id) (k : string) : M (option string) :=
  run_command c (GET k) (fun d => (value <$> d !! k, d)).

Definition set (c : conn_id) (k v : string) : M bool :=
  run_command c (SET k v)
    (fun d => (true, <[k := {| value := v; expiry := None |}]> d)).

Definition setex (c : conn_id) (k v : string) (time : Z) : M bool :=
  run_command c (SETEX k v time)
    (fun d => (true, <[k := {| value := v; expiry := Some time |}]> d)).

Definition delete (c : conn_id) (ks : list string) : M unit :=
  run_command c (DEL ks) (fun d => (tt, foldr (fun k m => base.delete k m) d ks)).

Definition exists_ (c : conn_id) (k : string) : M bool :=
  run_command c (EXISTS k) (fun d => (bool_decide (is_Some (d !! k)), d)).

Definition ttl (c : conn_id) (k : string) : M (option Z) :=
  run_command c (TTL k) (fun d => (d !! k ≫= expiry, d)).

Definition mget (c : conn_id) (ks : list string) : M (list (option string)) :=
  run_command c (MGET ks) (fun d => ((fun k => value <$> d !! k) <$> ks, d)).

Definition flushdb (c : conn_id) : M bool :=
  run_command c FLUSHDB (fun d => (true, ∅)).

(** [close()] releases the connection; it sends no command. *)
Definition close (c : conn_id) : M unit :=
  fun st =>
    let cn := redis st !!! c in
    Return tt {| self := self st;
                 redis := <[c := {| data := data cn; log := log cn;
                                    fail_in := fail_in cn; closed := true |}]>
                            (redis st) |}.

End Conn.

Definition rbind {A B} (r : result A) (k : A -> result B) : result B :=
  match r with
  | Ok a => k a
  | Err e => Err e
  end.

(** [try: r except (ValueError, TypeError): h] *)
Definition except_value_type {A} (r : result A) (h : result A) : result A :=
  match r with
  | Err (ValueError _) | Err TypeError => h
  | _ => r
  end.

(** ** [SortedDict]: a dictionary that keeps insertion order.  Setting a
    key that is present replaces its value in place, a new key goes to
    the end. *)
Fixpoint sorted_dict_set {V} (k : key) (v : V) (d : list (key * V)) : list (key * V) :=
  match d with
  | [] => [(k, v)]
  | (k', v') :: d' =>
      if decide (k' = k) then (k', v) :: d' else (k', v') :: sorted_dict_set k v d'
  end.

(** [dict(zip(new_keys, keys))], keyed by the string of the [CacheKey]:
    a later pair replaces an earlier one with the same key. *)
Definition dict_of_pairs (ps : list (string * key)) : gmap string key :=
  foldl (fun m p => <[p.1 := p.2]> m) ∅ ps.

(** ** class DefaultClient *)
Module DefaultClient.
Section methods.
Context `{imports}.

(** [setup_pickle_version] *)
Definition setup_pickle_version (o : object) : result object :=
  match _options o !! "PICKLE_VERSION" with
  | Some v =>
      except_value_type
        (rbind (int v) (fun n => Ok (set_pickle_version n o)))
        (Err (ImproperlyConfigured "PICKLE_VERSION value must be an integer"))
  | None => Ok o
  end.

(** [__init__]: the attributes are assigned, the server setting is
    checked, the options are read, the pickle version is set up.  No
    connection is opened here. *)
Definition __init__ (server : pyval) (params : params) (backend : backend)
    : result object :=
  if negb (truthy server) then
    Err (ImproperlyConfigured "Missing connections string")
  else
    setup_pickle_version
      {| _pickle_version := -1; _backend := backend; _server := server;
         _params := params; _options := default ∅ (OPTIONS params);
         _client := None; _nodes := None; _serverdict := None;
         _ring := None |}.

(** [parse_connection_string].  The handler of the [try] formats its
    message with the name [connection_string], which is bound nowhere
    (the parameter is [constring]): evaluating it raises [NameError]
    before [ImproperlyConfigured] is built. *)
Definition parse_connection_string (constring : pyval)
    : result (string * pyval * Z) :=
  match constring with
  | PyStr s =>
      except_value_type
        (match split ":" s with
         | [host; port; db] =>
             rbind (if String.eqb host "unix" then Ok (PyStr port)
                    else rbind (int (PyStr port)) (fun n => Ok (PyInt n)))
                   (fun port' =>
             rbind (int (PyStr db)) (fun db' => Ok (host, port', db')))
         | _ => Err (ValueError "wrong number of values to unpack")
         end)
        (Err (NameError "connection_string"))
  | _ => Err (AttributeError "split")
  end.

(** [self.parser_class], read by [_connect].  Neither [DefaultClient]
    nor [ShardClient] defines an attribute of that name (the property
    [parser_class] belongs to [MasterSlaveClient]) and no method assigns
    it, so the lookup raises [AttributeError]. *)
Definition parser_class : M unit := raise (AttributeError "parser_class").

(** [_connect]: the dictionary [kwargs] is built first, then the pool
    and the [Redis] object. *)
Definition _connect (host : string) (port : pyval) (db : Z) : M conn_id :=
  parser_class ;;;
  o <- get_self ;;
  ret (Redis host port db (default PyNone (_options o !! "PASSWORD"))).

(** [connect] *)
Definition connect : M conn_id :=
  o <- get_self ;;
  hpd <- lift (parse_connection_string (_server o)) ;;
  _connect hpd.1.1 hpd.1.2 hpd.2.

(** The property [client]: the cached [_client] if the attribute is
    there, else a new connection, which is cached. *)
Definition client : M conn_id :=
  o <- get_self ;;
  match _client o with
  | Some c => ret c
  | None =>
      c <- connect ;;
      o' <- get_self ;;
      put_self (set_client (Some c) o') ;;;
      ret c
  end.

(** [if client is None: client = self.client] *)
Definition client_or_default (c : option conn_id) : M conn_id :=
  match c with
  | Some c => ret c
  | None => client
  end.

(** [make_key] *)
Definition make_key (k : key) (version : option Z) : M key :=
  o <- get_self ;;
  match k with
  | CacheKey _ => ret k
  | Raw s => ret (CacheKey (backend_make_key (_backend o) s version))
  end.

(** [pickle] and [unpickle] *)
Definition pickle (v : pyval) : M string :=
  o <- get_self ;;
  ret (pickle_dumps v (_pickle_version o)).

Definition unpickle (bytes : string) : M pyval := lift (pickle_loads bytes).

(** [set].  A timeout is a whole number of seconds here, so that
    [int(timeout)] is the timeout itself. *)
Definition set (k : key) (v : pyval) (timeout : option Z) (version : option Z)
    (client : option conn_id) : M bool :=
  client <- client_or_default client ;;
  k <- make_key k version ;;
  v <- pickle v ;;
  o <- get_self ;;
  let timeout := default (default_timeout (_backend o)) timeout in
  interrumped client
    (if 0 <? timeout then Conn.setex client (str k) v timeout
     else Conn.set client (str k) v).

(** [get] *)
Definition get (k : key) (default : pyval) (version : option Z)
    (client : option conn_id) : M pyval :=
  client <- client_or_default client ;;
  k <- make_key k version ;;
  v <- interrumped client (Conn.get client (str k)) ;;
  match v with
  | None => ret default
  | Some bytes => unpickle bytes
  end.

(** [delete] *)
Definition delete (k : key) (version : option Z) (client : option conn_id)
    : M unit :=
  client <- client_or_default client ;;
  interrumped client
    (k <- make_key k version ;; Conn.delete client [str k]).

(** [incr_version] *)
Definition incr_version (k : key) (delta : Z) (version : option Z)
    (client : option conn_id) : M Z :=
  client <- client_or_default client ;;
  o <- get_self ;;
  let version := default (backend_version (_backend o)) version in
  old_key <- make_key k (Some version) ;;
  v <- get old_key PyNone (Some version) (Some client) ;;
  ttl <- interrumped client (Conn.ttl client (str old_key)) ;;
  match v with
  | PyNone => raise (ValueError ("Key '" +:+ str k +:+ "' not found"))
  | _ =>
      new_key <- match k with
                 | CacheKey s => make_key (Raw (original_key s)) (Some (version + delta))
                 | Raw _ => make_key k (Some (version + delta))
                 end ;;
      set new_key v ttl None (Some client) ;;;
      delete old_key None (Some client) ;;;
      ret (version + delta)
  end.

(** [add] *)
Definition add (k : key) (v : pyval) (timeout : option Z) (version : option Z)
    (client : option conn_id) : M bool :=
  client <- client_or_default client ;;
  k <- make_key k version ;;
  present <- interrumped client (Conn.exists_ client (str k)) ;;
  if present then ret false
  else set k v timeout None (Some client).

(** [map(lambda key: self.make_key(key, version=version), keys)] *)
Fixpoint make_keys (ks : list key) (version : option Z) : M (list key) :=
  match ks with
  | [] => ret []
  | k :: ks' =>
      k' <- make_key k version ;;
      ks'' <- make_keys ks' version ;;
      ret (k' :: ks'')
  end.

(** [delete_many] *)
Definition delete_many (ks : list key) (version : option Z)
    (client : option conn_id) : M unit :=
  client <- client_or_default client ;;
  match ks with
  | [] => ret tt
  | _ =>
      new_keys <- make_keys ks version ;;
      interrumped client (Conn.delete client (str <$> new_keys))
  end.

(** [clear]: [flushdb] is called outside any [try]. *)
Definition clear (client : option conn_id) : M unit :=
  client <- client_or_default client ;;
  Conn.flushdb client ;;;
  ret tt.

(** The loop of [get_many] over [zip(new_keys, results)]. *)
Fixpoint get_many_loop (map_keys : gmap string key)
    (pairs : list (key * option string)) (recovered_data : list (key * pyval))
    : M (list (key * pyval)) :=
  match pairs with
  | [] => ret recovered_data
  | (k, None) :: pairs' => get_many_loop map_keys pairs' recovered_data
  | (k, Some bytes) :: pairs' =>
      v <- unpickle bytes ;;
      match map_keys !! str k with
      | Some user_key =>
          get_many_loop map_keys pairs' (sorted_dict_set user_key v recovered_data)
      | None => raise (KeyError (str k))
      end
  end.

(** [get_many] *)
Definition get_many (ks : list key) (version : option Z)
    (client : option conn_id) : M (list (key * pyval)) :=
  client <- client_or_default client ;;
  match ks with
  | [] => ret []
  | _ =>
      new_keys <- make_keys ks version ;;
      let map_keys := dict_of_pairs (zip (str <$> new_keys) ks) in
      results <- interrumped client (Conn.mget client (str <$> new_keys)) ;;
      get_many_loop map_keys (zip new_keys results) []
  end.

(** [has_key] *)
Definition has_key (k : key) (version : option Z) (client : option conn_id)
    : M bool :=
  client <- client_or_default client ;;
  k <- make_key k version ;;
  interrumped client (Conn.exists_ client (str k)).

(** [incr]: [client.exists] is called outside any [try]. *)
Definition incr (k : key) (delta : Z) (version : option Z)
    (client : option conn_id) : M pyval :=
  client <- client_or_default client ;;
  k <- make_key k version ;;
  present <- Conn.exists_ client (str k) ;;
  if negb present then raise (ValueError ("Key '" +:+ str k +:+ "' not found"))
  else
    old <- get k PyNone version (Some client) ;;
    v <- lift (py_add old delta) ;;
    set k v None version (Some client) ;;;
    ret v.

(** [decr]: the existence test is [self.has_key(key)], called without
    the [client] argument. *)
Definition decr (k : key) (delta : Z) (version : option Z)
    (client : option conn_id) : M pyval :=
  client <- client_or_default client ;;
  k <- make_key k version ;;
  present <- has_key k None None ;;
  if negb present then raise (ValueError ("Key '" +:+ str k +:+ "' not found"))
  else
    old <- get k PyNone version (Some client) ;;
    v <- lift (py_sub old delta) ;;
    set k v None version (Some client) ;;;
    ret v.

(** [close]: close the connection, then [del self._client]. *)
Definition close : M unit :=
  c <- client ;;
  Conn.close c ;;;
  o <- get_self ;;
  match _client o with
  | Some _ => put_self (set_client None o)
  | None => raise (AttributeError "_client")
  end.

End methods.
End DefaultClient.

(** ** class ShardClient(DefaultClient) *)
Module ShardClient.
Section methods.
Context `{imports}.

(** [__init__]: the constructor of the base class, then
    [self._ring = HashRing(self._nodes)]. *)
Definition __init__ (server : pyval) (params : params) (backend : backend)
    : result object :=
  rbind (DefaultClient.__init__ server params backend) (fun o =>
  match _nodes o with
  | Some nodes => Ok (set_ring (HashRing nodes) o)
  | None => Err (AttributeError "_nodes")
  end).

(** [get_server_name] *)
Definition get_server_name (_key : key) : M string :=
  o <- get_self ;;
  match _ring o with
  | Some ring => ret (get_node ring (hashed_key (str _key)))
  | None => raise (AttributeError "_ring")
  end.

(** [get_server] *)
Definition get_server (k : key) : M conn_id :=
  name <- get_server_name k ;;
  o <- get_self ;;
  match _serverdict o with
  | Some serverdict =>
      match serverdict !! name with
      | Some c => ret c
      | None => raise (KeyError name)
      end
  | None => raise (AttributeError "_serverdict")
  end.

(** [get] *)
Definition get (k : key) (default : pyval) (version : option Z)
    (client : option conn_id) : M pyval :=
  match client with
  | None =>
      k <- DefaultClient.make_key k version ;;
      client <- get_server k ;;
      DefaultClient.get k default version (Some client)
  | Some _ => DefaultClient.get k default version client
  end.

(** The loop of [get_many] over [new_keys]. *)
Fixpoint get_many_loop (map_keys : gmap string key) (version : option Z)
    (new_keys : list key) (recovered_data : list (key * pyval))
    : M (list (key * pyval)) :=
  match new_keys with
  | [] => ret recovered_data
  | k :: new_keys' =>
      client <- get_server k ;;
      v <- get k PyNone version (Some client) ;;
      match v with
      | PyNone => get_many_loop map_keys version new_keys' recovered_data
      | _ =>
          match map_keys !! str k with
          | Some user_key =>
              get_many_loop map_keys version new_keys'
                (sorted_dict_set user_key v recovered_data)
          | None => raise (KeyError (str k))
          end
      end
  end.

(** [get_many] *)
Definition get_many (ks : list key) (version : option Z)
    : M (list (key * pyval)) :=
  match ks with
  | [] => ret []
  | _ =>
      new_keys <- DefaultClient.make_keys ks version ;;
      let map_keys := dict_of_pairs (zip (str <$> new_keys) ks) in
      get_many_loop map_keys version new_keys []
  end.

(** [add]: the call of the base class is made without the [timeout]. *)
Definition add (k : key) (v : pyval) (timeout : option Z) (version : option Z)
    (client : option conn_id) : M bool :=
  match client with
  | None =>
      k <- DefaultClient.make_key k version ;;
      client <- get_server k ;;
      DefaultClient.add k v None version (Some client)
  | Some _ => DefaultClient.add k v None version client
  end.

(** [set] *)
Definition set (k : key) (v : pyval) (timeout : option Z) (version : option Z)
    (client : option conn_id) : M bool :=
  match client with
  | None =>
      k <- DefaultClient.make_key k version ;;
      client <- get_server k ;;
      DefaultClient.set k v timeout version (Some client)
  | Some _ => DefaultClient.set k v timeout version client
  end.

(** [delete] *)
Definition delete (k : key) (version : option Z) (client : option conn_id)
    : M unit :=
  match client with
  | None =>
      k <- DefaultClient.make_key k version ;;
      client <- get_server k ;;
      DefaultClient.delete k version (Some client)
  | Some _ => DefaultClient.delete k version client
  end.

(** The loop of [delete_many] over the versioned keys. *)
Fixpoint delete_many_loop (new_keys : list key) : M unit :=
  match new_keys with
  | [] => ret tt
  | k :: new_keys' =>
      client <- get_server k ;;
      delete k None (Some client) ;;;
      delete_many_loop new_keys'
  end.

(** [delete_many] *)
Definition delete_many (ks : list key) (version : option Z) : M unit :=
  new_keys <- DefaultClient.make_keys ks version ;;
  delete_many_loop new_keys.

(** [incr_version] *)
Definition incr_version (k : key) (delta : Z) (version : option Z)
    (client : option conn_id) : M Z :=
  match client with
  | None =>
      k <- DefaultClient.make_key k version ;;
      client <- get_server k ;;
      DefaultClient.incr_version k delta version (Some client)
  | Some _ => DefaultClient.incr_version k delta version client
  end.

(** [incr] *)
Definition incr (k : key) (delta : Z) (version : option Z)
    (client : option conn_id) : M pyval :=
  match client with
  | None =>
      k <- DefaultClient.make_key k version ;;
      client <- get_server k ;;
      DefaultClient.incr k delta version (Some client)
  | Some _ => DefaultClient.incr k delta version client
  end.

(** [decr] *)
Definition decr (k : key) (delta : Z) (version : option Z)
    (client : option conn_id) : M pyval :=
  match client with
  | None =>
      k <- DefaultClient.make_key k version ;;
      client <- get_server k ;;
      DefaultClient.decr k delta version (Some client)
  | Some _ => DefaultClient.decr k delta version client
  end.

End methods.
End ShardClient.

(** ** Observations on a state *)

(** The database, the command log and the health of connection [c]. *)
Definition db (st : state) (c : conn_id) : gmap string entry := data (redis st !!! c).

Definition commands (st : state) (c : conn_id) : list command := log (redis st !!! c).

Definition healthy (st : state) (c : conn_id) : Prop := fail_in (redis st !!! c) = None.

Definition down (st : state) (c : conn_id) : Prop := fail_in (redis st !!! c) = Some O.

(** The connection a call works on: the [client] argument when it is
    given, else the cached [self._client]. *)
Definition connection_of (st : state) (client : option conn_id) : option conn_id :=
  match client with
  | Some c => Some c
  | None => _client (self st)
  end.

(** The time to live that [set] gives a key for a [timeout] argument. *)
Definition expiry_of_timeout (b : backend) (timeout : option Z) : option Z :=
  let t := default (default_timeout b) timeout in
  if 0 <? t then Some t else None.

(** The versioned key that [make_key] builds for a key argument. *)
Definition full_key (b : backend) (k : key) (version : option Z) : string :=
  match k with
  | CacheKey s => s
  | Raw s => backend_make_key b s version
  end.

(** The command by which [set] stores a value with the expiry [e]. *)
Definition set_command (k v : string) (e : option Z) : command :=
  match e with
  | Some t => SETEX k v t
  | None => SET k v
  end.

(** The state after [set] has stored [v] under [k] on connection [c]. *)
Definition stored (c : conn_id) (k v : string) (e : option Z) (st : state) : state :=
  commit c (set_command k v e) (<[k := {| value := v; expiry := e |}]> (db st c)) st.

(** The state after the read-only command [cmd] on connection [c]. *)
Definition asked (c : conn_id) (cmd : command) (st : state) : state :=
  commit c cmd (db st c) st.

(** What [get] answers for the database entry [e], if any. *)
Definition decoded `{imports} (e : option entry) (default : pyval) : result pyval :=
  match e with
  | None => Ok default
  | Some e => pickle_loads (value e)
  end.

(** The key under which [incr_version] writes the value again. *)
Definition new_key_of `{imports} (b : backend) (k : key) (ver : Z) : string :=
  match k with
  | CacheKey s => backend_make_key b (original_key s) (Some ver)
  | Raw s => backend_make_key b s (Some ver)
  end.

Definition not_found (k : string) : exn := ValueError ("Key '" +:+ k +:+ "' not found").

(** The keys of a list, each at its first occurrence. *)
Fixpoint first_occurrences (l : list key) : list key :=
  match l with
  | [] => []
  | k :: l' => k :: filter (fun k' => k' <> k) (first_occurrences l')
  end.

(** The entry of a key in the result: none when its value is [None]. *)
Definition entry_of (val : key -> pyval) (k : key) : option (key * pyval) :=
  match val k with
  | PyNone => None
  | v => Some (k, v)
  end.

(** One turn of the loop of [get_many]. *)
Definition merge_step (val : key -> pyval) (acc : list (key * pyval)) (k : key) : list (key * pyval) :=
  match val k with
  | PyNone => acc
  | v => sorted_dict_set k v acc
  end.

(** The connection that owns a versioned key: the entry of
    [_serverdict] for the node that the ring gives to the hashed part
    of the key. *)
Definition shard_for (o : object) (fk : string) : option conn_id :=
  match _ring o, _serverdict o with
  | Some ring, Some serverdict => serverdict !! get_node ring (hashed_key fk)
  | _, _ => None
  end.

(** The value that the owning shard holds for a key, [None] when the
    shard has no entry for it. *)
Definition shard_value `{imports} (st : state) (version : option Z) (k : key) : pyval :=
  let fk := full_key (_backend (self st)) k version in
  match shard_for (self st) fk with
  | Some c =>
      match decoded (db st c !! fk) PyNone with
      | Ok v => v
      | Err _ => PyNone
      end
  | None => PyNone
  end.

(** [st'] has the client and the databases of [st], and every
    connection that is up in [st] is up in [st']. *)
Definition same_data (st st' : state) : Prop :=
  self st' = self st
  /\ forall c, db st' c = db st c /\ (healthy st c -> healthy st' c).

(** ** Concrete collaborators, for examples

    A small codec, the key function of the Django cache framework
    (prefix, version and key joined by colons), a ring that picks a node
    by the sum of the character codes of the key, and a [Redis]
    constructor that numbers the connection by the database. *)
Definition show_Z (n : Z) : string := pretty n.

Definition toy_dumps (v : pyval) (protocol : Z) : string :=
  match v with
  | PyNone => "N"
  | PyBool true => "T"
  | PyBool false => "F"
  | PyInt n => String "I" (show_Z n)
  | PyStr s => String "S" s
  end.

Definition toy_loads (bytes : string) : result pyval :=
  match bytes with
  | "N" => Ok PyNone
  | "T" => Ok (PyBool true)
  | "F" => Ok (PyBool false)
  | String "I" r =>
      match int_of_string r with
      | Some n => Ok (PyInt n)
      | None => Err UnpicklingError
      end
  | String "S" r => Ok (PyStr r)
  | _ => Err UnpicklingError
  end.

Fixpoint code_sum (s : string) : nat :=
  match s with
  | EmptyString => O
  | String c s' => (nat_of_ascii c + code_sum s')%nat
  end.

Definition toy_ring (nodes : list string) : hash_ring :=
  {| get_node := fun k => nth (code_sum k mod length nodes) nodes "" |}.

Definition toy_imports : imports :=
  {| pickle_dumps := toy_dumps;
     pickle_loads := toy_loads;
     original_key := fun s => List.last (split ":" s) "";
     Redis := fun _ _ db _ => Z.to_nat db;
     HashRing := toy_ring |}.

Definition django_backend (prefix : string) (timeout ver : Z) : backend :=
  {| default_timeout := timeout;
     backend_version := ver;
     backend_make_key := fun k v =>
       prefix +:+ ":" +:+ show_Z (default ver v) +:+ ":" +:+ k |}.

Definition no_params : params := {| OPTIONS := None |}.

(** A client as [DefaultClient.__init__] leaves it, and the same client
    holding a cached connection. *)
Definition fresh_client (server : string) (b : backend) : object :=
  {| _pickle_version := -1; _backend := b; _server := PyStr server;
     _params := no_params; _options := ∅; _client := None; _nodes := None;
     _serverdict := None; _ring := None |}.

Definition connected_client (server : string) (b : backend) (c : conn_id) : object :=
  set_client (Some c) (fresh_client server b).

Definition conn_with (d : list (string * entry)) : conn :=
  {| data := list_to_map d; log := []; fail_in := None; closed := false |}.

Definition broken_conn : conn :=
  {| data := ∅; log := []; fail_in := Some O; closed := false |}.

(** A sharded client over three nodes, as its methods expect it. *)
Definition three_shards : state :=
  {| self := {| _pickle_version := -1; _backend := django_backend "" 300 1;
                _server := PyStr "127.0.0.1:6379:1"; _params := no_params;
                _options := ∅; _client := None;
                _nodes := Some ["n0"; "n1"; "n2"];
                _serverdict := Some (list_to_map [("n0", 0%nat); ("n1", 1%nat); ("n2", 2%nat)]);
                _ring := Some (toy_ring ["n0"; "n1"; "n2"]) |};
     redis := list_to_map
                [(0%nat, conn_with [(":1:c", {| value := "I7"; expiry := Some 60 |})]);
                 (1%nat, conn_with [(":1:a", {| value := "Sx"; expiry := None |})]);
                 (2%nat, conn_with [])] |}.

(** A [DefaultClient] with a cached connection, number 0, that is up
    and holds the entries [d]; the backend has no key prefix, the
    default timeout 300 and the default version 1. *)
Definition cached_state (d : list (string * entry)) : state :=
  {| self := connected_client "127.0.0.1:6379:1" (django_backend "" 300 1) 0%nat;
     redis := {[ 0%nat := conn_with d ]} |}.

(** The same client when the transport of its connection is down. *)
Definition broken_state : state :=
  {| self := connected_client "127.0.0.1:6379:1" (django_backend "" 300 1) 0%nat;
     redis := {[ 0%nat := broken_conn ]} |}.

(** A client just built from a connection string with two fields. *)
Definition malformed_state : state :=
  {| self := fresh_client "localhost:6379" (django_backend "" 300 1);
     redis := ∅ |}.

(** ** Further observations *)

(** Connection [c] serves its next command. *)
Definition alive (st : state) (c : conn_id) : Prop :=
  fail_in (redis st !!! c) <> Some O.

(** What the property [client] raises for a client without cached
    connection: the error of [parse_connection_string] on the server
    setting, or else the [AttributeError] of [_connect]. *)
Definition connect_error (server : pyval) : exn :=
  match DefaultClient.parse_connection_string server with
  | Ok _ => AttributeError "parser_class"
  | Err e => e
  end.

(** The value that connection [c] holds under the key [k], unpickled. *)
Definition held `{imports} (st : state) (c : conn_id) (k : string) : option pyval :=
  match db st c !! k with
  | Some e =>
      match pickle_loads (value e) with
      | Ok v => Some v
      | Err _ => None
      end
  | None => None
  end.

(** One turn of a loop that fills a [SortedDict] from the keys that
    have a value, and the entry of a key in the result. *)
Definition merge_opt {V} (val : key -> option V) (acc : list (key * V)) (k : key)
    : list (key * V) :=
  match val k with
  | Some v => sorted_dict_set k v acc
  | None => acc
  end.

Definition entry_opt {V} (val : key -> option V) (k : key) : option (key * V) :=
  pair k <$> val k.

(** The computation [m] never lets a [ConnectionError] through. *)
Definition never_raw {A} (m : M A) : Prop :=
  forall st st', m st <> Raise ConnectionError st'.

(** The pickle protocol that the options ask for: the integer value of
    PICKLE_VERSION, or -1 without that option. *)
Definition configured_version (p : params) : Z :=
  match default ∅ (OPTIONS p) !! "PICKLE_VERSION" with
  | Some v =>
      match int v with
      | Ok n => n
      | Err _ => -1
      end
  | None => -1
  end.

(** ** Fields of a string *)

(** The number of occurrences of a character. *)
Fixpoint count_char (c : ascii) (s : string) : nat :=
  match s with
  | EmptyString => O
  | String c' s' => ((if Ascii.eqb c' c then 1 else 0) + count_char c s')%nat
  end.

(** [s.split(sep, maxsplit)] for a one-character separator: at most
    [maxsplit] cuts, from the left. *)
Fixpoint split_max (sep : ascii) (maxsplit : nat) (s : string) : list string :=
  match maxsplit with
  | O => [s]
  | S n =>
      (fix scan (s : string) : list string :=
         match s with
         | EmptyString => [EmptyString]
         | String c s' =>
             if Ascii.eqb c sep then EmptyString :: split_max sep n s'
             else match scan s' with
                  | h :: t => String c h :: t
                  | [] => [String c EmptyString]
                  end
         end) s
  end.

(** The function that [keys] maps over the answer of the connection:
    the third field of the versioned key, everything after the second
    colon.  [None] stands for the [IndexError] of a key with fewer than
    two colons. *)
Definition third_field (x : string) : option string := split_max ":" 2 x !! 2%nat.

(** What [keys] makes of the answer of the connection: the third field
    of every key, as a set.  The list that [keys] returns holds the
    elements of this set in no particular order. *)
Definition keys_result (reply : list string) : option (gset string) :=
  list_to_set <$> mapM third_field reply.

(** A versioned key of three fields. *)
Definition join3 (t : string * string * string) : string :=
  t.1.1 +:+ String ":" (t.1.2 +:+ String ":" t.2).

(** ** class MasterSlaveClient(DefaultClient): construction

    The server setting of this class may be a string, or a list or
    tuple of strings or of pairs; [setting] is the Python values that
    such a setting is made of. *)
#[local] Unset Elimination Schemes.
Inductive setting :=
| SNone
| SInt (n : Z)
| SStr (s : string)
| SList (l : list setting)
| STuple (l : list setting).
#[local] Set Elimination Schemes.

(** A setting that names its first connection by a string: a string,
    or a list or tuple that starts with a string or with a list or
    tuple that starts with a string. *)
Definition starts_with_string (x : setting) : bool :=
  match x with
  | SStr _ | SList (SStr _ :: _) | STuple (SStr _ :: _) => true
  | _ => false
  end.

Definition names_by_string (server : setting) : bool :=
  match server with
  | SStr _ => true
  | SList (x :: _) | STuple (x :: _) => starts_with_string x
  | _ => false
  end.

Module MasterSlaveClient.

(** What the constructor may raise: the exceptions of the module and
    [IndexError]. *)
Inductive raised :=
| Raised (e : exn)
| IndexError.

Inductive outcome (A : Type) :=
| Done (a : A)
| Fail (e : raised).
Arguments Done {A} a.
Arguments Fail {A} e.

Definition and_then {A B} (r : outcome A) (k : A -> outcome B) : outcome B :=
  match r with
  | Done a => k a
  | Fail e => Fail e
  end.

Definition of_result {A} (r : result A) : outcome A :=
  match r with
  | Ok a => Done a
  | Err e => Fail (Raised e)
  end.

(** Truth value of a setting. *)
Definition truthy (x : setting) : bool :=
  match x with
  | SNone => false
  | SInt n => negb (n =? 0)
  | SStr s => negb (String.eqb s "")
  | SList l | STuple l => negb (bool_decide (l = []))
  end.

(** [isinstance(x, (list, tuple))] *)
Definition is_list_or_tuple (x : setting) : bool :=
  match x with
  | SList _ | STuple _ => true
  | _ => false
  end.

(** The elements that a [for] over [x] visits. *)
Definition elements (x : setting) : outcome (list setting) :=
  match x with
  | SList l | STuple l => Done l
  | SStr s => Done ((fun c => SStr (String c EmptyString)) <$> list_ascii_of_string s)
  | SNone | SInt _ => Fail (Raised TypeError)
  end.

(** [x[0]] *)
Definition item0 (x : setting) : outcome setting :=
  match x with
  | SList (a :: _) | STuple (a :: _) => Done a
  | SStr (String c _) => Done (SStr (String c EmptyString))
  | SList [] | STuple [] | SStr EmptyString => Fail IndexError
  | SNone | SInt _ => Fail (Raised TypeError)
  end.

(** [a, b = x] *)
Definition unpack2 (x : setting) : outcome (setting * setting) :=
  and_then (elements x) (fun l =>
  match l with
  | [a; b] => Done (a, b)
  | _ => Fail (Raised (ValueError "wrong number of values to unpack"))
  end).

(** [[x[0] for x in l]] *)
Fixpoint first_items (l : list setting) : outcome (list setting) :=
  match l with
  | [] => Done []
  | x :: l' =>
      and_then (item0 x) (fun a =>
      and_then (first_items l') (fun l'' => Done (a :: l'')))
  end.

(** The names the constructor takes from other modules: [load_class]
    of [util], and the making of a [Redis] object over its connection
    pool, which may raise. *)
Class collaborators := {
  load_class : pyval -> result unit;
  new_redis : string -> pyval -> Z -> pyval -> result conn_id
}.

(** A generator object: the outcome that running its body has in
    store, the values it yields or the exception that ends it.
    Iterating a generator to its end leaves it exhausted. *)
Inductive generator (A : Type) :=
| Suspended (body : outcome (list A))
| Exhausted.
Arguments Suspended {A} body.
Arguments Exhausted {A}.

Definition iterate {A} (g : generator A) : outcome (list A) * generator A :=
  match g with
  | Suspended body => (body, Exhausted)
  | Exhausted => (Done [], Exhausted)
  end.

(** The two router classes of [router.py]. *)
Inductive router_class :=
| DummyRouter
| MasterSlaveRouter.

(** An instance; [_router] records the class of the router and the
    arguments it was made with. *)
Record instance := {
  _pickle_version : Z;
  _backend : backend;
  _server : list setting;
  _params : params;
  _options : gmap string pyval;
  _serverdict : gmap string conn_id;
  _nodes : list string;
  _router : router_class * gmap string conn_id * list string
}.

Section methods.
Context `{collaborators}.

(** The property [parser_class] *)
Definition parser_class (options : gmap string pyval) : result unit :=
  match options !! "PARSER_CLASS" with
  | None | Some PyNone => Ok tt
  | Some cls => load_class cls
  end.

(** [_connect], inherited: the dictionary [kwargs], then the pool and
    the [Redis] object. *)
Definition _connect (options : gmap string pyval) (host : string) (port : pyval)
    (db : Z) : result conn_id :=
  rbind (parser_class options) (fun _ =>
  new_redis host port db (default PyNone (options !! "PASSWORD"))).

(** The loop of [connect] over the connection settings. *)
Fixpoint connect_loop (options : gmap string pyval) (l : list setting)
    : outcome (list (string * conn_id * setting)) :=
  match l with
  | [] => Done []
  | x :: l' =>
      and_then (unpack2 x) (fun cf =>
      let connstring := cf.1 in
      let fallback := cf.2 in
      and_then (of_result (DefaultClient.parse_connection_string
                             match connstring with
                             | SStr s => PyStr s
                             | _ => PyNone
                             end)) (fun hpd =>
      match _connect options hpd.1.1 hpd.1.2 hpd.2 with
      | Ok connection =>
          and_then (connect_loop options l') (fun rest =>
          Done ((match connstring with SStr s => s | _ => EmptyString end,
                 connection, fallback) :: rest))
      | Err ConnectionError => connect_loop options l'
      | Err e => Fail (Raised e)
      end))
  end.

(** The body of the generator [connect]. *)
Definition connect (server : list setting) (options : gmap string pyval)
    : outcome (list (string * conn_id * setting)) :=
  and_then (first_items server) (connect_loop options).

(** The normal form that [__init__] gives the server setting. *)
Definition normalize (server : setting) : list setting :=
  match server with
  | SList (x :: l) | STuple (x :: l) =>
      if is_list_or_tuple x then x :: l
      else (fun y => STuple [y; SNone]) <$> (x :: l)
  | _ => [STuple [server; SNone]]
  end.

(** [setup_router] *)
Definition setup_router (serverdict : gmap string conn_id) (nodes : list string)
    : router_class * gmap string conn_id * list string :=
  if bool_decide (length nodes <= 1)%nat then (DummyRouter, serverdict, nodes)
  else (MasterSlaveRouter, serverdict, nodes).

(** [__init__] *)
Definition __init__ (server : setting) (params : params) (backend : backend)
    : outcome instance :=
  if negb (truthy server) then
    Fail (Raised (ImproperlyConfigured "Missing connections string"))
  else
    let server := normalize server in
    let options := default ∅ (OPTIONS params) in
    let serverlist := Suspended (connect server options) in
    let '(first_pass, serverlist) := iterate serverlist in
    and_then first_pass (fun items =>
    let serverdict :=
      foldl (fun m (x : string * conn_id * setting) => <[x.1.1 := x.1.2]> m) ∅ items in
    let '(second_pass, serverlist) := iterate serverlist in
    and_then second_pass (fun items' =>
    let nodes := (fun x : string * conn_id * setting => x.1.1) <$> items' in
    let router := setup_router serverdict nodes in
    match options !! "PICKLE_VERSION" with
    | Some v =>
        of_result (except_value_type
          (rbind (int v) (fun n =>
             Ok {| _pickle_version := n; _backend := backend; _server := server;
                   _params := params; _options := options;
                   _serverdict := serverdict; _nodes := nodes; _router := router |}))
          (Err (ImproperlyConfigured "PICKLE_VERSION value must be an integer")))
    | None =>
        Done {| _pickle_version := -1; _backend := backend; _server := server;
                _params := params; _options := options;
                _serverdict := serverdict; _nodes := nodes; _router := router |}
    end)).

End methods.
End MasterSlaveClient.

(** Collaborators for examples: every class loads, every connection is
    made, numbered by its database. *)
Definition toy_collaborators : MasterSlaveClient.collaborators :=
  {| MasterSlaveClient.load_class := fun _ => Ok tt;
     MasterSlaveClient.new_redis := fun _ _ db _ => Ok (Z.to_nat db) |}.

(** A server setting that the constructor accepts: each connection is
    a tuple that holds the pair of connection string and fallback. *)
Definition nested_servers : setting :=
  SList [STuple [STuple [SStr "127.0.0.1:6379:1"; SNone]];
         STuple [STuple [SStr "127.0.0.1:6380:2"; SNone]]].

(** The client with a cached connection whose transport lets three
    commands through. *)
Definition failing_state (d : list (string * entry)) : state :=
  {| self := connected_client "127.0.0.1:6379:1" (django_backend "" 300 1) 0%nat;
     redis := {[ 0%nat := {| data := list_to_map d; log := []; fail_in := Some 3%nat;
                             closed := false |} ]} |}.

Definition protocol_two : params :=
  {| OPTIONS := Some {[ "PICKLE_VERSION" := PyStr "2" ]} |}.

(** The client that [__init__] builds with these options. *)
Definition protocol_two_client : object :=
  match DefaultClient.__init__ (PyStr "127.0.0.1:6379:1") protocol_two
          (django_backend "" 300 1) with
  | Ok o => o
  | Err _ => fresh_client "127.0.0.1:6379:1" (django_backend "" 300 1)
  end.


(** A client whose cached connection, number 0, is up and empty, beside
    a second connection, number 1, that is up and holds the entries
    [d]. *)
Definition spare_state (d : list (string * entry)) : state :=
  {| self := connected_client "127.0.0.1:6379:1" (django_backend "" 300 1) 0%nat;
     redis := list_to_map [(0%nat, conn_with []); (1%nat, conn_with d)] |}.
(** * Properties *)

(** ** The hash tag pattern *)

Lemma app_cons (c : ascii) (s t : string) : String c s +:+ t = String c (s +:+ t).
Proof. reflexivity. Qed.

Lemma length_app (s t : string) :
  String.length (s +:+ t) = (String.length s + String.length t)%nat.
Proof. induction s as [|c s IH]; [reflexivity|]. rewrite app_cons. simpl. now rewrite IH. Qed.

Lemma substring_prefix (s t : string) : String.substring 0 (String.length s) (s +:+ t) = s.
Proof.
  induction s as [|c s IH].
  - destruct t; reflexivity.
  - rewrite app_cons. simpl. now rewrite IH.
Qed.

Lemma is_newline_false (c : ascii) (s : string) :
  ~ occurs "010"%char (String c s) -> is_newline c = false.
Proof.
  intros Hn. unfold is_newline. destruct (Ascii.eqb_spec c "010"%char) as [->|]; [|reflexivity].
  exfalso. apply Hn. now left.
Qed.

(** The equations of the matcher. *)
Lemma re_match_done (s start stop : string) :
  re_match [] s start stop
  = Some (String.substring 0 (String.length start - String.length stop) start).
Proof. reflexivity. Qed.

Lemma re_match_star_end (p : list re_item) (start stop : string) :
  re_match (AnyStar :: p) "" start stop = re_match p "" start stop.
Proof. reflexivity. Qed.

Lemma re_match_star_step (p : list re_item) (c : ascii) (s start stop : string) :
  re_match (AnyStar :: p) (String c s) start stop
  = if is_newline c then re_match p (String c s) start stop
    else match re_match (AnyStar :: p) s start stop with
         | Some g => Some g
         | None => re_match p (String c s) start stop
         end.
Proof. reflexivity. Qed.

Lemma re_match_lit_end (p : list re_item) (c : ascii) (start stop : string) :
  re_match (Lit c :: p) "" start stop = None.
Proof. reflexivity. Qed.

Lemma re_match_lit_step (p : list re_item) (c c' : ascii) (s start stop : string) :
  re_match (Lit c :: p) (String c' s) start stop
  = if Ascii.eqb c c' then re_match p s start stop else None.
Proof. reflexivity. Qed.

Lemma re_match_open (p : list re_item) (s start stop : string) :
  re_match (GroupOpen :: p) s start stop = re_match p s s stop.
Proof. reflexivity. Qed.

Lemma re_match_close (p : list re_item) (s start stop : string) :
  re_match (GroupClose :: p) s start stop = re_match p s start s.
Proof. reflexivity. Qed.

Lemma eqb_other (c c' : ascii) (s : string) :
  ~ occurs c (String c' s) -> Ascii.eqb c c' = false.
Proof.
  intros Hn. destruct (Ascii.eqb_spec c c') as [->|]; [|reflexivity].
  exfalso. apply Hn. now left.
Qed.

Lemma occurs_tail (c c' : ascii) (s : string) :
  ~ occurs c (String c' s) -> ~ occurs c s.
Proof. intros Hn ?. apply Hn. now right. Qed.

(** The trailing star of the pattern always matches. *)
Lemma match_trailing_star (s start stop : string) :
  re_match [AnyStar] s start stop
  = Some (String.substring 0 (String.length start - String.length stop) start).
Proof.
  induction s as [|c s IH]; [reflexivity|].
  rewrite re_match_star_step, IH, re_match_done. now destruct (is_newline c).
Qed.

(** The first line of a string: it holds no line feed, the string is the
    line followed by the rest, and the rest is empty or begins with a
    line feed. *)
Lemma occurs_app (c : ascii) (a b : string) :
  occurs c (a +:+ b) <-> occurs c a \/ occurs c b.
Proof.
  induction a as [|c' a IH].
  - change ("" +:+ b) with b. cbn [occurs]. tauto.
  - rewrite app_cons. cbn [occurs]. rewrite IH. tauto.
Qed.

Lemma app_assoc_string (a b c : string) : (a +:+ b) +:+ c = a +:+ (b +:+ c).
Proof.
  induction a as [|x a IH]; [reflexivity|]. rewrite !app_cons. now rewrite IH.
Qed.

Lemma app_empty_r (a : string) : a +:+ "" = a.
Proof. induction a as [|x a IH]; [reflexivity|]. rewrite app_cons. now rewrite IH. Qed.

Lemma is_newline_true (c : ascii) : is_newline c = true -> c = "010"%char.
Proof. unfold is_newline. intros H. now apply Ascii.eqb_eq in H. Qed.

Lemma first_line_no_line_feed (s : string) : ~ occurs "010"%char (first_line s).
Proof.
  induction s as [|c s IH]; cbn [first_line]; [intros []|].
  destruct (is_newline c) eqn:Hc; [intros []|].
  cbn [occurs]. intros [<-|H]; [discriminate Hc | now apply IH].
Qed.

Lemma first_line_split (s : string) : s = first_line s +:+ after_first_line s.
Proof.
  induction s as [|c s IH]; [reflexivity|]. cbn [first_line after_first_line].
  destruct (is_newline c); [reflexivity|]. rewrite app_cons. now rewrite <- IH.
Qed.

Lemma first_line_after (s : string) : first_line (after_first_line s) = "".
Proof.
  induction s as [|c s IH]; [reflexivity|]. cbn [after_first_line].
  destruct (is_newline c) eqn:Hc; [|exact IH]. cbn [first_line]. now rewrite Hc.
Qed.

Lemma first_line_app (a b : string) :
  ~ occurs "010"%char a -> first_line (a +:+ b) = a +:+ first_line b.
Proof.
  induction a as [|c a IH]; intros Hn; [reflexivity|].
  rewrite !app_cons. cbn [first_line]. rewrite (is_newline_false _ _ Hn).
  now rewrite (IH (occurs_tail _ _ _ Hn)).
Qed.

Lemma first_line_whole (s : string) : ~ occurs "010"%char s -> first_line s = s.
Proof.
  intros Hn. rewrite <- (app_empty_r s) at 1. rewrite (first_line_app _ _ Hn).
  apply app_empty_r.
Qed.

(** Inside the group, the star cannot stop where no closing brace follows
    on the line. *)
Lemma match_group_no_close (s start stop : string) :
  ~ occurs "}"%char (first_line s) ->
  re_match [AnyStar; GroupClose; Lit "}"%char; AnyStar] s start stop = None.
Proof.
  induction s as [|c s IH]; intros Hc; [reflexivity|].
  rewrite re_match_star_step, re_match_close, re_match_lit_step.
  cbn [first_line] in Hc. destruct (is_newline c) eqn:Hnl.
  - now rewrite (is_newline_true _ Hnl).
  - now rewrite (IH (occurs_tail _ _ _ Hc)), (eqb_other _ _ _ Hc).
Qed.

(** The group extends to the last closing brace of the line. *)
Lemma match_group_capture (g post start stop : string) :
  ~ occurs "010"%char g -> ~ occurs "}"%char (first_line post) ->
  re_match [AnyStar; GroupClose; Lit "}"%char; AnyStar] (g +:+ String "}" post) start stop
  = Some (String.substring 0 (String.length start - String.length (String "}" post)) start).
Proof.
  intros Hn Hc. induction g as [|c g IH].
  - change ("" +:+ String "}" post) with (String "}" post).
    rewrite re_match_star_step, (match_group_no_close post start stop Hc).
    rewrite re_match_close, re_match_lit_step, match_trailing_star.
    reflexivity.
  - rewrite app_cons, re_match_star_step, (IH (occurs_tail _ _ _ Hn)).
    now rewrite (is_newline_false _ _ Hn).
Qed.

Lemma no_tag_no_open (s : string) : ~ occurs "{"%char s -> no_tag s.
Proof.
  induction s as [|c s IH]; intros Ho; [exact I|]. split.
  - intros ->. exfalso. apply Ho. now left.
  - apply IH. intros ?. apply Ho. now right.
Qed.

Lemma no_tag_no_close (s : string) : ~ occurs "}"%char s -> no_tag s.
Proof.
  induction s as [|c s IH]; intros Hc; [exact I|].
  assert (Hs : ~ occurs "}"%char s) by (intros ?; apply Hc; now right).
  split; [intros _; exact Hs | now apply IH].
Qed.

Lemma no_tag_after_group (g post : string) :
  ~ occurs "{"%char g -> ~ occurs "}"%char post -> no_tag (g +:+ String "}" post).
Proof.
  intros Ho Hc. induction g as [|c g IH].
  - split; [discriminate | now apply no_tag_no_close].
  - rewrite app_cons. split.
    + intros ->. exfalso. apply Ho. now left.
    + apply IH. intros ?. apply Ho. now right.
Qed.

(** Without a tag on the first line the pattern does not match. *)
Lemma findhash_no_tag_none (s start stop : string) :
  no_tag (first_line s) -> re_match _findhash s start stop = None.
Proof.
  unfold _findhash. induction s as [|c s IH]; intros Ht; [reflexivity|].
  rewrite re_match_star_step, re_match_lit_step.
  cbn [first_line] in Ht. destruct (is_newline c) eqn:Hnl.
  - now rewrite (is_newline_true _ Hnl).
  - destruct Ht as [Hc Ht]. rewrite (IH Ht).
    destruct (Ascii.eqb_spec "{"%char c) as [<-|]; [|reflexivity].
    now rewrite re_match_open, (match_group_no_close s s stop (Hc eq_refl)).
Qed.

(** What the pattern captures: with no line feed before the closing
    brace, no opening brace inside [tag] and no closing brace after it on
    the line, the group is [tag]. *)
Lemma findhash_capture_from (pre tag post start stop : string) :
  ~ occurs "010"%char pre -> ~ occurs "010"%char tag ->
  ~ occurs "{"%char tag -> ~ occurs "}"%char (first_line post) ->
  re_match _findhash (pre +:+ String "{" (tag +:+ String "}" post)) start stop
  = Some tag.
Proof.
  intros Hpre Htag Ho Hc. unfold _findhash.
  induction pre as [|c pre IH].
  - change ("" +:+ ?x) with x.
    assert (Hline : no_tag (first_line (tag +:+ String "}" post))).
    { rewrite (first_line_app _ _ Htag). cbn [first_line is_newline Ascii.eqb Bool.eqb].
      now apply no_tag_after_group. }
    pose proof (findhash_no_tag_none _ start stop Hline) as Hnone.
    unfold _findhash in Hnone.
    rewrite re_match_star_step, Hnone, re_match_lit_step, re_match_open.
    rewrite (match_group_capture tag post _ stop Htag Hc).
    cbn [is_newline Ascii.eqb Bool.eqb]. f_equal. rewrite length_app.
    replace (String.length tag + String.length (String "}" post)
             - String.length (String "}" post))%nat with (String.length tag) by lia.
    apply substring_prefix.
  - rewrite app_cons, re_match_star_step, (IH (occurs_tail _ _ _ Hpre)).
    now rewrite (is_newline_false _ _ Hpre).
Qed.

(** Only the first line of the key counts: when it reads [pre{tag}post]
    with no opening brace in [tag] and no closing brace in [post], the
    pattern captures [tag], whatever follows the line. *)
Lemma findhash_capture (s pre tag post : string) :
  first_line s = pre +:+ String "{" (tag +:+ String "}" post) ->
  ~ occurs "{"%char tag -> ~ occurs "}"%char post ->
  findhash_match s = Some tag.
Proof.
  intros Hline Ho Hc. unfold findhash_match.
  pose proof (first_line_no_line_feed s) as Hn. rewrite Hline in Hn.
  assert (Hpre : ~ occurs "010"%char pre)
    by (intros H; apply Hn, occurs_app; now left).
  assert (Htag : ~ occurs "010"%char tag).
  { intros H. apply Hn, occurs_app. right. right. apply occurs_app. now left. }
  assert (Hpost : ~ occurs "010"%char post).
  { intros H. apply Hn, occurs_app. right. right. apply occurs_app. right. now right. }
  rewrite (first_line_split s), Hline, app_assoc_string, app_cons, app_assoc_string, app_cons.
  apply findhash_capture_from; try assumption.
  now rewrite (first_line_app _ _ Hpost), first_line_after, app_empty_r.
Qed.

(** Every line either has no tag or reads [pre{tag}post] as above. *)
Lemma occurs_dec (c : ascii) (s : string) : {occurs c s} + {~ occurs c s}.
Proof.
  induction s as [|c' s IH]; [right; intros []|].
  destruct (Ascii.eqb_spec c c') as [->|Hne]; [left; now left|].
  destruct IH as [H|H]; [left; now right|].
  right. intros [?|?]; contradiction.
Qed.

Lemma last_close (s : string) :
  occurs "}"%char s ->
  exists g post, s = g +:+ String "}" post /\ ~ occurs "}"%char post.
Proof.
  induction s as [|c s IH]; [intros []|]. intros Hs.
  destruct (occurs_dec "}"%char s) as [Hin|Hout].
  - destruct (IH Hin) as (g & post & -> & Hpost).
    exists (String c g), post. now rewrite app_cons.
  - destruct Hs as [<-|Hs]; [|contradiction].
    now exists "", s.
Qed.

Lemma no_tag_before_close (g post : string) :
  no_tag (g +:+ String "}" post) -> ~ occurs "{"%char g.
Proof.
  induction g as [|c g IH]; [intros _ []|].
  rewrite app_cons. intros [Hc Ht] [<-|Hg].
  - apply (Hc eq_refl), occurs_app. right. now left.
  - now apply (IH Ht).
Qed.

Lemma tag_or_no_tag (l : string) :
  no_tag l
  \/ exists pre tag post,
       l = pre +:+ String "{" (tag +:+ String "}" post)
       /\ ~ occurs "{"%char tag /\ ~ occurs "}"%char post.
Proof.
  induction l as [|c l IH]; [now left|].
  destruct IH as [Ht|(pre & tag & post & -> & Ho & Hc)].
  - destruct (Ascii.eqb_spec c "{"%char) as [->|Hne].
    + destruct (occurs_dec "}"%char l) as [Hin|Hout].
      * right. destruct (last_close l Hin) as (g & post & -> & Hpost).
        exists "", g, post. split; [reflexivity|].
        split; [now apply (no_tag_before_close g post)|assumption].
      * left. split; [intros _; exact Hout | exact Ht].
    + left. split; [intros ?; contradiction | exact Ht].
  - right. exists (String c pre), tag, post. now rewrite app_cons.
Qed.

Example findhash_one_tag : findhash_match "a{shard1}" = Some "shard1".
Proof. reflexivity. Qed.

Example findhash_two_tags : findhash_match "a{x}{y}" = Some "y".
Proof. reflexivity. Qed.

Example findhash_close_inside : findhash_match "a{x}y}z" = Some "x}y".
Proof. reflexivity. Qed.

Example findhash_no_tag : findhash_match "1:1:plain}{" = None.
Proof. reflexivity. Qed.

Example findhash_line_feed : findhash_match (String "010" "{x}") = None.
Proof. reflexivity. Qed.

Example findhash_first_line_only :
  findhash_match ("{a}" +:+ String "010" "{b}") = Some "a".
Proof. reflexivity. Qed.

Ltac no_occurrence :=
  cbn [occurs]; intros Hocc;
  repeat (destruct Hocc as [Hocc|Hocc]; [discriminate Hocc|]); exact Hocc.

(** C1, as amended.  [get_server_name] hashes the text that the pattern
    captures, and the pattern reads only the first line of the key, the
    text before its first line feed.  When that line reads [pre{tag}post]
    with no opening brace in [tag] and no closing brace in [post], the
    hashed text is [tag], so two such keys with the same tag go to the
    same node.  When no opening brace of the line has a closing brace
    after it, the key is hashed whole.  Every key is in one of the two
    cases. *)
Theorem hash_tag_locality (st : state) (ring : hash_ring) :
  _ring (self st) = Some ring ->
  (forall (k : key) (pre tag post : string),
      first_line (str k) = pre +:+ String "{" (tag +:+ String "}" post) ->
      ~ occurs "{"%char tag -> ~ occurs "}"%char post ->
      ShardClient.get_server_name k st = Return (get_node ring tag) st)
  /\ (forall (k1 k2 : key) (pre1 post1 pre2 post2 tag : string),
      first_line (str k1) = pre1 +:+ String "{" (tag +:+ String "}" post1) ->
      first_line (str k2) = pre2 +:+ String "{" (tag +:+ String "}" post2) ->
      ~ occurs "{"%char tag ->
      ~ occurs "}"%char post1 -> ~ occurs "}"%char post2 ->
      ShardClient.get_server_name k1 st = ShardClient.get_server_name k2 st)
  /\ (forall k : key,
      no_tag (first_line (str k)) ->
      ShardClient.get_server_name k st = Return (get_node ring (str k)) st)
  /\ (forall k : key,
      no_tag (first_line (str k))
      \/ exists pre tag post,
           first_line (str k) = pre +:+ String "{" (tag +:+ String "}" post)
           /\ ~ occurs "{"%char tag /\ ~ occurs "}"%char post).
Proof.
  intros Hring.
  assert (Hone : forall (k : key) (pre tag post : string),
      first_line (str k) = pre +:+ String "{" (tag +:+ String "}" post) ->
      ~ occurs "{"%char tag -> ~ occurs "}"%char post ->
      ShardClient.get_server_name k st = Return (get_node ring tag) st).
  { intros k pre tag post Hk Ho Hc.
    unfold ShardClient.get_server_name, bind, get_self, ret, hashed_key.
    now rewrite Hring, (findhash_capture (str k) pre tag post Hk Ho Hc). }
  split; [exact Hone|]. split; [|split].
  - intros k1 k2 pre1 post1 pre2 post2 tag Hk1 Hk2 Ho Hc1 Hc2.
    now rewrite (Hone k1 pre1 tag post1), (Hone k2 pre2 tag post2).
  - intros k Hk.
    unfold ShardClient.get_server_name, bind, get_self, ret, hashed_key, findhash_match.
    now rewrite Hring, findhash_no_tag_none.
  - intros k. apply tag_or_no_tag.
Qed.

Lemma hash_tag_locality_witness :
  ShardClient.get_server_name (CacheKey ":1:a{shard1}") three_shards
  = ShardClient.get_server_name (CacheKey ":1:b{shard1}") three_shards.
Proof.
  apply (proj1 (proj2 (hash_tag_locality three_shards (toy_ring ["n0"; "n1"; "n2"]) eq_refl))
           (CacheKey ":1:a{shard1}") (CacheKey ":1:b{shard1}") ":1:a" "" ":1:b" "" "shard1");
    try reflexivity; no_occurrence.
Defined.

(** C1 as stated fails: both keys have [shard1] inside their first pair
    of braces, yet the text that is hashed is the one inside the last
    pair of the line, and the keys go to different nodes.  A pair of
    braces after a line feed is not read at all: the key is hashed
    whole. *)
Lemma hash_tag_first_pair_counterexample :
  first_hash_tag ":1:a{shard1}{x}" = Some "shard1"
  /\ first_hash_tag ":1:b{shard1}{y}" = Some "shard1"
  /\ hashed_key ":1:a{shard1}{x}" = "x"
  /\ hashed_key ":1:b{shard1}{y}" = "y"
  /\ ShardClient.get_server_name (CacheKey ":1:a{shard1}{x}") three_shards
     = Return "n0" three_shards
  /\ ShardClient.get_server_name (CacheKey ":1:b{shard1}{y}") three_shards
     = Return "n1" three_shards
  /\ ShardClient.get_server_name (CacheKey ":1:a{shard1}{x}") three_shards
     <> ShardClient.get_server_name (CacheKey ":1:b{shard1}{y}") three_shards
  /\ first_hash_tag (":1:a" +:+ String "010" "{shard1}") = Some "shard1"
  /\ hashed_key (":1:a" +:+ String "010" "{shard1}") = ":1:a" +:+ String "010" "{shard1}".
Proof.
  repeat split; try reflexivity.
  vm_compute. discriminate.
Qed.

(** ** Connections *)

Lemma self_commit c cmd d st : self (commit c cmd d st) = self st.
Proof. reflexivity. Qed.

Lemma db_commit c cmd d st : db (commit c cmd d st) c = d.
Proof. unfold db, commit. cbn. now rewrite lookup_total_insert_eq. Qed.

Lemma commands_commit c cmd d st : commands (commit c cmd d st) c = commands st c ++ [cmd].
Proof. unfold commands, commit. cbn. now rewrite lookup_total_insert_eq. Qed.

Lemma healthy_commit c cmd d st : healthy st c -> healthy (commit c cmd d st) c.
Proof.
  unfold healthy, commit. intros Hh. cbn. rewrite lookup_total_insert_eq. cbn.
  now rewrite Hh.
Qed.

Lemma redis_commit_ne c c' cmd d st :
  c <> c' -> redis (commit c cmd d st) !!! c' = redis st !!! c'.
Proof. intros Hne. unfold commit. cbn. now rewrite lookup_total_insert_ne. Qed.

Lemma run_command_healthy {A} c cmd (reply : gmap string entry -> A * gmap string entry) st :
  healthy st c ->
  run_command c cmd reply st
  = Return (reply (db st c)).1 (commit c cmd (reply (db st c)).2 st).
Proof.
  unfold healthy, run_command, db. intros ->. now destruct (reply _).
Qed.

Lemma run_command_down {A} c cmd (reply : gmap string entry -> A * gmap string entry) st :
  down st c -> run_command c cmd reply st = Raise ConnectionError st.
Proof. unfold down, run_command. now intros ->. Qed.

Section facts.
Context `{imports}.

Lemma client_or_default_connection st client c :
  connection_of st client = Some c ->
  DefaultClient.client_or_default client st = Return c st.
Proof.
  destruct client as [c'|]; cbn.
  - now intros [= ->].
  - intros Hc. unfold DefaultClient.client, bind, get_self. now rewrite Hc.
Qed.

(** [set] on a connection that is up. *)
Lemma set_healthy st k v timeout version client c :
  connection_of st client = Some c -> healthy st c ->
  DefaultClient.set k v timeout version client st
  = Return true
      (stored c (full_key (_backend (self st)) k version)
         (pickle_dumps v (_pickle_version (self st)))
         (expiry_of_timeout (_backend (self st)) timeout) st).
Proof.
  intros Hc Hh. unfold DefaultClient.set, bind.
  rewrite (client_or_default_connection _ _ _ Hc).
  unfold stored, expiry_of_timeout, interrumped.
  destruct k as [s|s]; cbn;
    destruct (0 <? default (default_timeout (_backend (self st))) timeout);
    unfold Conn.setex, Conn.set; now rewrite run_command_healthy.
Qed.

Lemma db_asked c cmd st : db (asked c cmd st) c = db st c.
Proof. apply db_commit. Qed.

Lemma healthy_asked c cmd st : healthy st c -> healthy (asked c cmd st) c.
Proof. apply healthy_commit. Qed.

Lemma healthy_stored c k v e st : healthy st c -> healthy (stored c k v e st) c.
Proof. apply healthy_commit. Qed.

Lemma db_stored c k v e st :
  db (stored c k v e st) c = <[k := {| value := v; expiry := e |}]> (db st c).
Proof. apply db_commit. Qed.

Lemma make_key_run st k version :
  DefaultClient.make_key k version st
  = Return (CacheKey (full_key (_backend (self st)) k version)) st.
Proof. now destruct k. Qed.

(** [get] on a connection that is up. *)
Lemma get_healthy st k default version client c :
  connection_of st client = Some c -> healthy st c ->
  let fk := full_key (_backend (self st)) k version in
  DefaultClient.get k default version client st
  = match decoded (db st c !! fk) default with
    | Ok v => Return v (asked c (GET fk) st)
    | Err e => Raise e (asked c (GET fk) st)
    end.
Proof.
  intros Hc Hh fk. unfold DefaultClient.get, bind.
  rewrite (client_or_default_connection _ _ _ Hc), make_key_run.
  unfold interrumped, Conn.get. rewrite run_command_healthy by assumption.
  cbn [fst snd str]. fold fk. unfold decoded, asked.
  destruct (db st c !! fk) as [e|]; cbn; [|reflexivity].
  unfold DefaultClient.unpickle, lift. now destruct (pickle_loads (value e)).
Qed.

(** [delete] on a connection that is up. *)
Lemma delete_healthy st k version client c :
  connection_of st client = Some c -> healthy st c ->
  let fk := full_key (_backend (self st)) k version in
  DefaultClient.delete k version client st
  = Return tt (commit c (DEL [fk]) (delete fk (db st c)) st).
Proof.
  intros Hc Hh fk. unfold DefaultClient.delete, bind.
  rewrite (client_or_default_connection _ _ _ Hc).
  unfold interrumped. rewrite make_key_run.
  unfold Conn.delete. now rewrite run_command_healthy.
Qed.

Lemma exists_healthy st c k :
  healthy st c ->
  Conn.exists_ c k st = Return (bool_decide (is_Some (db st c !! k))) (asked c (EXISTS k) st).
Proof. intros Hh. unfold Conn.exists_. now rewrite run_command_healthy. Qed.

Lemma ttl_healthy st c k :
  healthy st c ->
  Conn.ttl c k st = Return (db st c !! k ≫= expiry) (asked c (TTL k) st).
Proof. intros Hh. unfold Conn.ttl. now rewrite run_command_healthy. Qed.

(** [has_key] on a connection that is up. *)
Lemma has_key_healthy st k version client c :
  connection_of st client = Some c -> healthy st c ->
  let fk := full_key (_backend (self st)) k version in
  DefaultClient.has_key k version client st
  = Return (bool_decide (is_Some (db st c !! fk))) (asked c (EXISTS fk) st).
Proof.
  intros Hc Hh fk. unfold DefaultClient.has_key, bind.
  rewrite (client_or_default_connection _ _ _ Hc), make_key_run.
  unfold interrumped. cbn [str]. now rewrite exists_healthy.
Qed.

End facts.

(** ** The facade operations *)

Section claims.
Context `{imports}.

(** C5, as amended.  [set] first replaces an unset timeout by the
    default timeout of the backend; then a timeout above zero gives
    SETEX with that many seconds, and a timeout of zero or below gives a
    plain SET, which stores the key without expiry. *)
Theorem set_timeout_boundary st k v timeout version client c :
  connection_of st client = Some c -> healthy st c ->
  let fk := full_key (_backend (self st)) k version in
  let bytes := pickle_dumps v (_pickle_version (self st)) in
  let t := default (default_timeout (_backend (self st))) timeout in
  exists st',
    DefaultClient.set k v timeout version client st = Return true st'
    /\ commands st' c
       = commands st c ++ [if 0 <? t then SETEX fk bytes t else SET fk bytes]
    /\ db st' c
       = <[fk := {| value := bytes; expiry := if 0 <? t then Some t else None |}]>
           (db st c).
Proof.
  intros Hc Hh fk bytes t. eexists. split; [apply set_healthy; eassumption|].
  unfold stored, expiry_of_timeout. fold fk bytes t.
  rewrite commands_commit, db_commit. now destruct (0 <? t).
Qed.

(** C6.  On a connection that is up, [add] on an absent key stores the
    value and returns true; a second [add] on the key returns false,
    sends nothing but the existence test and leaves the database as it
    was. *)
Theorem add_is_exclusive st k v1 v2 timeout timeout2 version client c :
  connection_of st client = Some c -> healthy st c ->
  let fk := full_key (_backend (self st)) k version in
  db st c !! fk = None ->
  exists st1 st2,
    DefaultClient.add k v1 timeout version client st = Return true st1
    /\ db st1 c
       = <[fk := {| value := pickle_dumps v1 (_pickle_version (self st));
                    expiry := expiry_of_timeout (_backend (self st)) timeout |}]>
           (db st c)
    /\ DefaultClient.add k v2 timeout2 version client st1 = Return false st2
    /\ db st2 c = db st1 c
    /\ commands st2 c = commands st1 c ++ [EXISTS fk].
Proof.
  intros Hc Hh fk Habs.
  assert (Hadd : forall st' v t,
    self st' = self st -> healthy st' c ->
    DefaultClient.add k v t version client st'
    = if bool_decide (is_Some (db st' c !! fk)) then Return false (asked c (EXISTS fk) st')
      else Return true
             (stored c fk (pickle_dumps v (_pickle_version (self st)))
                (expiry_of_timeout (_backend (self st)) t) (asked c (EXISTS fk) st'))).
  { intros st' v t Hs Hh'. unfold DefaultClient.add, bind.
    assert (Hc' : connection_of st' client = Some c).
    { destruct client; [exact Hc|]. cbn in *. now rewrite Hs. }
    rewrite (client_or_default_connection _ _ _ Hc'), make_key_run.
    unfold interrumped. cbn [str]. rewrite Hs. fold fk.
    rewrite exists_healthy by assumption.
    destruct (bool_decide (is_Some (db st' c !! fk))); [reflexivity|].
    rewrite (set_healthy _ _ _ _ _ _ c) by (try reflexivity; now apply healthy_asked).
    cbn [full_key self asked commit]. now rewrite Hs. }
  eexists _, _. split.
  { rewrite (Hadd st v1 timeout eq_refl Hh), Habs.
    rewrite bool_decide_eq_false_2 by (intros [? [=]]). reflexivity. }
  split. { now rewrite db_stored, db_asked. }
  split.
  { rewrite Hadd; [|reflexivity|now apply healthy_stored, healthy_asked].
    rewrite db_stored, lookup_insert_eq.
    rewrite bool_decide_eq_true_2 by eauto. reflexivity. }
  split; [apply db_asked|apply commands_commit].
Qed.

(** C2, as amended.  On a connection that is up, with the key present
    at the old version and holding a value other than [None]:
    [incr_version] reads the value and the time to live, stores the
    value under the key of version plus delta, deletes the old key and
    returns version plus delta; when the old key has a time to live of
    at least one second, the new key gets that time to live.  When the
    key is absent, or present with the value [None], the call raises
    the not-found error and the database is as before. *)
Theorem incr_version_moves_key st k delta version client c :
  connection_of st client = Some c -> healthy st c ->
  let b := _backend (self st) in
  let ver := default (backend_version b) version in
  let old := full_key b k (Some ver) in
  let new := new_key_of b k (ver + delta) in
  (forall e v,
     db st c !! old = Some e -> pickle_loads (value e) = Ok v -> v <> PyNone ->
     let bytes := pickle_dumps v (_pickle_version (self st)) in
     exists st' kept,
       DefaultClient.incr_version k delta version client st = Return (ver + delta) st'
       /\ commands st' c
          = commands st c ++ [GET old; TTL old; set_command new bytes kept; DEL [old]]
       /\ db st' c = delete old (<[new := {| value := bytes; expiry := kept |}]> (db st c))
       /\ db st' c !! old = None
       /\ (new <> old -> db st' c !! new = Some {| value := bytes; expiry := kept |})
       /\ (forall t, expiry e = Some t -> 0 < t -> kept = Some t))
  /\ (db st c !! old = None
      \/ (exists e, db st c !! old = Some e /\ pickle_loads (value e) = Ok PyNone) ->
      exists st',
        DefaultClient.incr_version k delta version client st
        = Raise (not_found (str k)) st'
        /\ db st' c = db st c
        /\ commands st' c = commands st c ++ [GET old; TTL old]).
Proof.
  intros Hc Hh b ver old new.
  assert (Hrun : DefaultClient.incr_version k delta version client st
    = let st2 := asked c (TTL old) (asked c (GET old) st) in
      match decoded (db st c !! old) PyNone with
      | Ok PyNone => Raise (not_found (str k)) st2
      | Ok v =>
          let st3 := stored c new (pickle_dumps v (_pickle_version (self st)))
                       (expiry_of_timeout b (db st c !! old ≫= expiry)) st2 in
          Return (ver + delta) (commit c (DEL [old]) (delete old (db st3 c)) st3)
      | Err e => Raise e (asked c (GET old) st)
      end).
  { unfold DefaultClient.incr_version, bind.
    rewrite (client_or_default_connection _ _ _ Hc). cbn [get_self].
    fold b ver. rewrite make_key_run. fold b old.
    rewrite (get_healthy _ _ _ _ _ c) by (try reflexivity; assumption).
    cbn [full_key]. fold old.
    destruct (decoded (db st c !! old) PyNone) as [v|e]; [|reflexivity].
    unfold interrumped. cbn [str]. rewrite ttl_healthy by now apply healthy_asked.
    rewrite db_asked.
    assert (Hnew : forall st', self st' = self st ->
      match k with
      | CacheKey s => DefaultClient.make_key (Raw (original_key s)) (Some (ver + delta))
      | Raw _ => DefaultClient.make_key k (Some (ver + delta))
      end st' = Return (CacheKey new) st').
    { intros st' Hs. unfold new, new_key_of, b. rewrite <- Hs. now destruct k. }
    destruct v; try reflexivity;
      rewrite Hnew by reflexivity;
      rewrite (set_healthy _ _ _ _ _ _ c)
        by (try reflexivity; now apply healthy_asked, healthy_asked);
      rewrite (delete_healthy _ _ _ _ c)
        by (try reflexivity; now apply healthy_stored, healthy_asked, healthy_asked);
      reflexivity. }
  split.
  - intros e v He Hv Hnone bytes. set (kept := expiry_of_timeout b (expiry e)).
    eexists _, kept. rewrite Hrun, He. cbn [decoded].
    rewrite Hv. cbn [mbind option_bind]. fold bytes kept.
    assert (Hdb : db (commit c (DEL [old])
                        (delete old (db (stored c new bytes kept
                           (asked c (TTL old) (asked c (GET old) st))) c))
                        (stored c new bytes kept
                           (asked c (TTL old) (asked c (GET old) st)))) c
                  = delete old (<[new := {| value := bytes; expiry := kept |}]> (db st c))).
    { now rewrite db_commit, db_stored, !db_asked. }
    split; [now destruct v|]. split.
    { unfold stored, asked. rewrite !commands_commit, <- !app_assoc. reflexivity. }
    split; [exact Hdb|]. rewrite Hdb. split; [apply lookup_delete_eq|]. split.
    + intros Hne. rewrite lookup_delete_ne by congruence. apply lookup_insert_eq.
    + intros t Ht Hpos. unfold kept, expiry_of_timeout. rewrite Ht. cbn.
      now rewrite (proj2 (Z.ltb_lt 0 t) Hpos).
  - intros Hmiss. eexists. rewrite Hrun.
    assert (Hd : decoded (db st c !! old) PyNone = Ok PyNone).
    { destruct Hmiss as [-> | (e & -> & He)]; [reflexivity | exact He]. }
    rewrite Hd. split; [reflexivity|]. split.
    + now rewrite !db_asked.
    + unfold asked. rewrite !commands_commit, <- !app_assoc. reflexivity.
Qed.

(** ** Transport failures *)

Lemma interrumped_wraps {A} (m : M A) c st st' :
  interrumped c m st <> Raise ConnectionError st'.
Proof.
  unfold interrumped. destruct (m st) as [a s|[] s]; discriminate.
Qed.

(** C3 at its failing inputs.  With the transport of the connection
    down, [incr] and [clear] let the [ConnectionError] of the connection
    through as it is, while [get], [has_key] and [delete] on the same
    state raise [ConnectionInterrumped] for that connection. *)
Theorem incr_and_clear_leak_connection_error st k delta version client c :
  connection_of st client = Some c -> down st c ->
  DefaultClient.incr k delta version client st = Raise ConnectionError st
  /\ DefaultClient.clear client st = Raise ConnectionError st
  /\ DefaultClient.get k PyNone version client st = Raise (ConnectionInterrumped c) st
  /\ DefaultClient.has_key k version client st = Raise (ConnectionInterrumped c) st
  /\ DefaultClient.delete k version client st = Raise (ConnectionInterrumped c) st.
Proof.
  intros Hc Hd.
  unfold DefaultClient.incr, DefaultClient.clear, DefaultClient.get,
    DefaultClient.has_key, DefaultClient.delete, bind, interrumped.
  rewrite !(client_or_default_connection _ _ _ Hc), !make_key_run.
  unfold Conn.exists_, Conn.flushdb, Conn.get, Conn.delete.
  now rewrite !run_command_down.
Qed.

(** ** Construction and release *)

(** What [__init__] leaves: no cached connection, no node list. *)
Lemma init_attributes server params backend o :
  DefaultClient.__init__ server params backend = Ok o ->
  _server o = server /\ _backend o = backend /\ _client o = None
  /\ _nodes o = None /\ _serverdict o = None /\ _ring o = None.
Proof.
  unfold DefaultClient.__init__, DefaultClient.setup_pickle_version.
  destruct (negb (truthy server)); [discriminate|]. cbn.
  destruct (default ∅ (OPTIONS params) !! "PICKLE_VERSION") as [v|].
  - destruct (int v) as [n|[]]; cbn; intros [= <-]; now cbn.
  - intros [= <-]. now cbn.
Qed.

(** C8, as amended.  Construction fails with [ImproperlyConfigured] when
    the server setting is missing or empty and when the option
    PICKLE_VERSION is not accepted by [int]; otherwise it succeeds,
    whatever the connection string is: the string is not looked at
    before a connection is first needed. *)
Theorem init_configuration_errors server params backend :
  (truthy server = false ->
     DefaultClient.__init__ server params backend
     = Err (ImproperlyConfigured "Missing connections string"))
  /\ (forall v e,
       truthy server = true ->
       default ∅ (OPTIONS params) !! "PICKLE_VERSION" = Some v -> int v = Err e ->
       DefaultClient.__init__ server params backend
       = Err (ImproperlyConfigured "PICKLE_VERSION value must be an integer"))
  /\ (truthy server = true ->
       (default ∅ (OPTIONS params) !! "PICKLE_VERSION" = None
        \/ exists v n, default ∅ (OPTIONS params) !! "PICKLE_VERSION" = Some v
                       /\ int v = Ok n) ->
       exists o, DefaultClient.__init__ server params backend = Ok o
                 /\ _server o = server /\ _client o = None).
Proof.
  unfold DefaultClient.__init__, DefaultClient.setup_pickle_version.
  split; [now intros ->|]. split.
  - intros v e -> Hv He. cbn. rewrite Hv, He.
    destruct v as [| | |s]; cbn in He; try discriminate.
    + now injection He as <-.
    + destruct (int_of_string s); [discriminate|]. now injection He as <-.
  - intros -> [Hv | (v & n & Hv & Hn)]; cbn; rewrite Hv; [|rewrite Hn]; cbn; eauto.
Qed.

(** Without a cached connection the property [client] raises: either
    the connection string does not parse, or [_connect] fails on
    [self.parser_class]. *)
Lemma client_uncached_raises st :
  _client (self st) = None -> exists e, DefaultClient.client st = Raise e st.
Proof.
  intros Hn. unfold DefaultClient.client, bind, get_self. rewrite Hn.
  unfold DefaultClient.connect, bind, get_self, lift.
  destruct (DefaultClient.parse_connection_string (_server (self st))); cbn; eauto.
Qed.

(** C9.  A call of [close] that succeeds removes the cached connection
    from the client, and a second call then raises: the property
    [client] cannot make a new connection. *)
Theorem close_twice_fails st st1 :
  DefaultClient.close st = Return tt st1 ->
  _client (self st1) = None
  /\ exists e, DefaultClient.close st1 = Raise e st1.
Proof.
  intros Hclose.
  assert (Hgone : _client (self st1) = None).
  { revert Hclose. unfold DefaultClient.close, bind.
    destruct (_client (self st)) as [c|] eqn:Hc.
    - unfold DefaultClient.client, bind, get_self. rewrite Hc. cbn. rewrite Hc.
      now intros [= <-].
    - destruct (client_uncached_raises st Hc) as [e ->]. discriminate. }
  split; [exact Hgone|].
  destruct (client_uncached_raises st1 Hgone) as [e He].
  exists e. unfold DefaultClient.close, bind. now rewrite He.
Qed.

(** C10, as amended.  [ShardClient.__init__] never returns an object:
    when the constructor of the base class raises
    ([ImproperlyConfigured]), that error comes out; otherwise reading
    [self._nodes] raises [AttributeError]. *)
Theorem shard_client_never_constructed server params backend :
  (forall o, ShardClient.__init__ server params backend <> Ok o)
  /\ ShardClient.__init__ server params backend
     = match DefaultClient.__init__ server params backend with
       | Ok _ => Err (AttributeError "_nodes")
       | Err e => Err e
       end.
Proof.
  assert (Heq : ShardClient.__init__ server params backend
     = match DefaultClient.__init__ server params backend with
       | Ok _ => Err (AttributeError "_nodes")
       | Err e => Err e
       end).
  { unfold ShardClient.__init__, rbind.
    destruct (DefaultClient.__init__ server params backend) as [o|e] eqn:Hinit;
      [|reflexivity].
    apply init_attributes in Hinit as (_ & _ & _ & -> & _). reflexivity. }
  split; [|exact Heq]. intros o. rewrite Heq.
  now destruct (DefaultClient.__init__ server params backend).
Qed.

End claims.

(** ** Merging in request order *)

Section merge.
Variable val : key -> pyval.

Lemma entry_of_some k p : (entry_of val) k = Some p -> p = (k, val k) /\ val k <> PyNone.
Proof. unfold entry_of. destruct (val k); intros [= <-]; now split. Qed.

Lemma entry_of_present k : val k <> PyNone -> (entry_of val) k = Some (k, val k).
Proof. unfold entry_of. now destruct (val k). Qed.

Lemma merge_step_entry k acc :
  (merge_step val) acc k
  = match (entry_of val) k with
    | Some p => sorted_dict_set p.1 p.2 acc
    | None => acc
    end.
Proof. unfold merge_step, entry_of. now destruct (val k). Qed.

Lemma set_present k l :
  k ∈ l -> val k <> PyNone ->
  sorted_dict_set k (val k) (omap (entry_of val) l) = omap (entry_of val) l.
Proof.
  intros Hin Hv. induction l as [|x l IH]; [now apply elem_of_nil in Hin|].
  cbn [omap list_omap]. destruct (decide (x = k)) as [->|Hne].
  - rewrite (entry_of_present k Hv). cbn. now rewrite decide_True.
  - assert (Hl : k ∈ l) by (apply elem_of_cons in Hin as [->|]; [contradiction|assumption]).
    specialize (IH Hl).
    destruct ((entry_of val) x) as [p|] eqn:Hx; [|exact IH].
    apply entry_of_some in Hx as [-> _]. cbn. rewrite decide_False by assumption.
    now rewrite IH.
Qed.

Lemma set_absent k v l :
  k ∉ l -> sorted_dict_set k v (omap (entry_of val) l) = omap (entry_of val) l ++ [(k, v)].
Proof.
  intros Hin. induction l as [|x l IH]; [reflexivity|].
  assert (Hne : x <> k) by set_solver. assert (Hl : k ∉ l) by set_solver.
  specialize (IH Hl). cbn [omap list_omap].
  destruct ((entry_of val) x) as [p|] eqn:Hx; [|exact IH].
  apply entry_of_some in Hx as [-> _]. cbn. rewrite decide_False by assumption.
  now rewrite IH.
Qed.

Lemma entries_skip_absent k (P : key -> Prop) `{!forall x, Decision (P x)} (l : list key) :
  (entry_of val) k = None ->
  omap (entry_of val) (filter P (filter (fun k' => k' <> k) l)) = omap (entry_of val) (filter P l).
Proof.
  intros Hk. induction l as [|x l IH]; [reflexivity|].
  rewrite !filter_cons. destruct (decide (x <> k)) as [Hne|Heq].
  - rewrite filter_cons. destruct (decide (P x)); [|exact IH].
    cbn [omap list_omap]. now rewrite IH.
  - apply dec_stable in Heq as ->. rewrite IH.
    destruct (decide (P k)); [|reflexivity]. cbn [omap list_omap]. now rewrite Hk.
Qed.

Lemma filter_seen k (seen l : list key) :
  k ∈ seen ->
  filter (fun x => x ∉ seen) (filter (fun k' => k' <> k) l) = filter (fun x => x ∉ seen) l.
Proof.
  intros Hin. induction l as [|x l IH]; [reflexivity|].
  rewrite !filter_cons. destruct (decide (x <> k)) as [Hne|Heq].
  - rewrite filter_cons. now rewrite IH.
  - apply dec_stable in Heq as ->. rewrite IH. now rewrite decide_False by set_solver.
Qed.

Lemma filter_seen_more k (seen l : list key) :
  filter (fun x => x ∉ seen ++ [k]) l
  = filter (fun x => x ∉ seen) (filter (fun k' => k' <> k) l).
Proof.
  induction l as [|x l IH]; [reflexivity|].
  rewrite !filter_cons. destruct (decide (x <> k)) as [Hne|Heq].
  - rewrite filter_cons, IH.
    destruct (decide (x ∉ seen)) as [Hx|Hx].
    + rewrite decide_True; [reflexivity|].
      rewrite elem_of_app, list_elem_of_singleton. tauto.
    + rewrite decide_False; [reflexivity|].
      rewrite elem_of_app. tauto.
  - apply dec_stable in Heq as ->. rewrite decide_False by set_solver. exact IH.
Qed.

Lemma filter_seen_nil (l : list key) : filter (fun x => x ∉ []) l = l.
Proof.
  induction l as [|x l IH]; [reflexivity|].
  rewrite filter_cons_True by apply not_elem_of_nil. now f_equal.
Qed.

Lemma merge_from seen ks :
  foldl (merge_step val) (omap (entry_of val) seen) ks
  = omap (entry_of val) (seen ++ filter (fun x => x ∉ seen) (first_occurrences ks)).
Proof.
  revert seen. induction ks as [|k ks IH]; intros seen.
  - cbn. now rewrite app_nil_r.
  - cbn [foldl first_occurrences]. rewrite merge_step_entry, filter_cons.
    destruct ((entry_of val) k) as [p|] eqn:Hk.
    + apply entry_of_some in Hk as [-> Hv]. cbn [fst snd].
      destruct (decide (k ∈ seen)) as [Hin|Hin].
      * rewrite set_present, IH by assumption.
        rewrite decide_False by set_solver. now rewrite filter_seen.
      * rewrite set_absent by assumption.
        pose proof (entry_of_present k Hv) as Hentry.
        replace (omap (entry_of val) seen ++ [(k, val k)]) with (omap (entry_of val) (seen ++ [k]))
          by (rewrite omap_app; cbn; now rewrite Hentry).
        rewrite IH, decide_True, filter_seen_more, <- app_assoc by assumption.
        reflexivity.
    + rewrite IH, !omap_app. f_equal.
      destruct (decide (k ∉ seen)).
      * cbn [omap list_omap]. rewrite Hk. now rewrite entries_skip_absent.
      * now rewrite entries_skip_absent.
Qed.

(** The loop of [get_many] leaves the present keys, each once, in the
    order of their first request. *)
Lemma merge_in_request_order ks :
  foldl (merge_step val) [] ks = omap (entry_of val) (first_occurrences ks).
Proof.
  pose proof (merge_from [] ks) as Hm. cbn [omap list_omap app] in Hm.
  now rewrite Hm, filter_seen_nil.
Qed.

End merge.

Lemma first_occurrences_NoDup (ks : list key) : NoDup ks -> first_occurrences ks = ks.
Proof.
  induction 1 as [|k ks Hk Hnd IH]; [reflexivity|].
  cbn. rewrite IH. f_equal. clear IH Hnd.
  induction ks as [|x ks IH]; [reflexivity|].
  apply not_elem_of_cons in Hk as [Hne Hk].
  rewrite filter_cons_True by congruence. f_equal. now apply IH.
Qed.

(** ** The sharded client *)

Lemma same_data_refl st : same_data st st.
Proof. now split. Qed.

Lemma same_data_asked st st' c cmd :
  same_data st st' -> same_data st (asked c cmd st').
Proof.
  intros [Hs Hd]. split; [exact Hs|]. intros c'.
  destruct (decide (c = c')) as [<-|Hne].
  - rewrite db_asked. split; [apply Hd|]. intros Hh. now apply healthy_asked, Hd.
  - unfold db, healthy, asked. rewrite redis_commit_ne by assumption. apply Hd.
Qed.

Lemma dict_of_pairs_lookup (f : key -> string) (ks : list key) (k : key) :
  (forall k1 k2, k1 ∈ ks -> k2 ∈ ks -> f k1 = f k2 -> k1 = k2) ->
  k ∈ ks -> dict_of_pairs (zip (f <$> ks) ks) !! f k = Some k.
Proof.
  intros Hinj Hk. unfold dict_of_pairs.
  assert (Hgen : forall (l : list key) (m : gmap string key),
    (forall x, x ∈ l -> x ∈ ks) ->
    foldl (fun m p => <[p.1 := p.2]> m) m (zip (f <$> l) l) !! f k
    = if decide (k ∈ l) then Some k else m !! f k).
  { induction l as [|x l IH]; intros m Hsub.
    - cbn. now rewrite decide_False by apply not_elem_of_nil.
    - cbn [fmap list_fmap zip zip_with foldl fst snd].
      rewrite IH by (intros y Hy; apply Hsub; now right).
      destruct (decide (k ∈ l)) as [Hin|Hin].
      + rewrite decide_True by now right. reflexivity.
      + destruct (decide (k = x)) as [->|Hne].
        * rewrite decide_True by now left. apply lookup_insert_eq.
        * rewrite decide_False by (rewrite elem_of_cons; tauto).
          apply lookup_insert_ne. intros Hf. apply Hne. symmetry.
          apply Hinj; [apply Hsub; now left | assumption | assumption]. }
  rewrite Hgen by auto. now rewrite decide_True.
Qed.

Section sharded.
Context `{imports}.

Lemma get_server_run st k c :
  shard_for (self st) (str k) = Some c -> ShardClient.get_server k st = Return c st.
Proof.
  unfold shard_for, ShardClient.get_server, ShardClient.get_server_name, bind, get_self.
  destruct (_ring (self st)) as [ring|]; [|discriminate]. cbn.
  destruct (_serverdict (self st)) as [sd|]; [|discriminate].
  now intros ->.
Qed.

Lemma make_keys_run st ks version :
  DefaultClient.make_keys ks version st
  = Return ((fun k => CacheKey (full_key (_backend (self st)) k version)) <$> ks) st.
Proof.
  induction ks as [|k ks IH]; [reflexivity|].
  cbn [DefaultClient.make_keys]. unfold bind. now rewrite make_key_run, IH.
Qed.

(** The loop of the sharded [get_many], when every key has a shard that
    is up and holds bytes that unpickle. *)
Lemma sharded_loop_run st version map_keys ks :
  let fk k := full_key (_backend (self st)) k version in
  (forall k, k ∈ ks ->
     exists c, shard_for (self st) (fk k) = Some c /\ healthy st c
               /\ forall e, db st c !! fk k = Some e ->
                            exists v, pickle_loads (value e) = Ok v) ->
  (forall k, k ∈ ks -> map_keys !! fk k = Some k) ->
  forall acc st', same_data st st' ->
  exists st'',
    ShardClient.get_many_loop map_keys version ((fun k => CacheKey (fk k)) <$> ks) acc st'
    = Return (foldl (merge_step (shard_value st version)) acc ks) st''
    /\ same_data st st''.
Proof.
  intros fk. induction ks as [|k ks IH]; intros Hshard Hmap acc st' Hsame.
  - exists st'. now split.
  - destruct (Hshard k) as (c & Hc & Hh & Hdec); [now left|].
    assert (Hval : decoded (db st c !! fk k) PyNone = Ok (shard_value st version k)).
    { unfold shard_value. fold (fk k). rewrite Hc.
      destruct (db st c !! fk k) as [e|] eqn:He; [|reflexivity].
      destruct (Hdec e eq_refl) as [v Hv]. cbn. now rewrite Hv. }
    destruct Hsame as [Hs Hd].
    assert (Hsame' : same_data st (asked c (GET (fk k)) st'))
      by (apply same_data_asked; now split).
    cbn [fmap list_fmap ShardClient.get_many_loop]. unfold bind.
    rewrite (get_server_run _ _ c) by (cbn [str]; now rewrite Hs).
    cbn [ShardClient.get].
    rewrite (get_healthy _ _ _ _ _ c) by (try reflexivity; now apply Hd).
    cbn [full_key]. rewrite (proj1 (Hd c)), Hval.
    cbn [foldl str]. unfold merge_step at 2.
    destruct (shard_value st version k) eqn:Hv;
      try rewrite (Hmap k) by now left.
    all: apply IH;
      [intros k' Hk'; apply Hshard; now right
      |intros k' Hk'; apply Hmap; now right
      |assumption].
Qed.

(** C4.  When every requested key has a shard that is up and whose
    bytes for the key unpickle, and the requested keys have distinct
    versioned keys, the sharded [get_many] asks for each key the shard
    that owns it and returns, in the order of the request, the keys
    whose shard holds a value other than [None], each with that value;
    the databases are as before. *)
Theorem sharded_get_many_in_request_order st ks version :
  let fk k := full_key (_backend (self st)) k version in
  (forall k, k ∈ ks ->
     exists c, shard_for (self st) (fk k) = Some c /\ healthy st c
               /\ forall e, db st c !! fk k = Some e ->
                            exists v, pickle_loads (value e) = Ok v) ->
  (forall k1 k2, k1 ∈ ks -> k2 ∈ ks -> fk k1 = fk k2 -> k1 = k2) ->
  exists st',
    ShardClient.get_many ks version st
    = Return (omap (entry_of (shard_value st version)) (first_occurrences ks)) st'
    /\ forall c, db st' c = db st c.
Proof.
  intros fk Hshard Hinj.
  destruct ks as [|k0 ks0] eqn:Hks; [exists st; now split|]. rewrite <- Hks in *.
  assert (Hrun : ShardClient.get_many ks version st
    = ShardClient.get_many_loop
        (dict_of_pairs (zip (str <$> ((fun k => CacheKey (fk k)) <$> ks)) ks))
        version ((fun k => CacheKey (fk k)) <$> ks) [] st).
  { rewrite Hks. unfold ShardClient.get_many, bind. now rewrite make_keys_run. }
  rewrite Hrun.
  destruct (sharded_loop_run st version
              (dict_of_pairs (zip (str <$> ((fun k => CacheKey (fk k)) <$> ks)) ks)) ks
              Hshard) with (acc := @nil (key * pyval)) (st' := st)
    as (st' & Hloop & _ & Hd).
  - intros k Hk. rewrite <- list_fmap_compose.
    now apply (dict_of_pairs_lookup (str ∘ (fun k => CacheKey (fk k))) ks k).
  - apply same_data_refl.
  - exists st'. split; [|apply Hd].
    rewrite <- merge_in_request_order. exact Hloop.
Qed.

End sharded.

(** ** Runs on concrete states *)

(** Run the call of the goal and give the state it leaves. *)
Ltac run_call_of m :=
  let r := eval vm_compute in m in
  match r with
  | Return _ ?s => exists s
  | Raise _ ?s => exists s
  end.

Ltac run_call :=
  match goal with
  | |- exists st', ?m = _ /\ _ => run_call_of m
  | |- exists st', ?m = _ => run_call_of m
  end.

Lemma set_timeout_boundary_witness :
  exists st',
    @DefaultClient.set toy_imports (Raw "k") (PyInt 5) (Some 0) None None (cached_state [])
    = Return true st'
    /\ commands st' 0%nat = commands (cached_state []) 0%nat ++ [SET ":1:k" "I5"]
    /\ db st' 0%nat
       = <[":1:k" := {| value := "I5"; expiry := None |}]> (db (cached_state []) 0%nat).
Proof.
  apply (@set_timeout_boundary toy_imports (cached_state []) (Raw "k") (PyInt 5)
           (Some 0) None None 0%nat); reflexivity.
Defined.

(** C5 as stated fails: with the timeout unset and a default timeout of
    300 seconds, [set] sends SETEX with 300 seconds, not a plain SET. *)
Lemma set_unset_timeout_counterexample :
  exists st',
    @DefaultClient.set toy_imports (Raw "k") (PyInt 5) None None None (cached_state [])
    = Return true st'
    /\ commands st' 0%nat = [SETEX ":1:k" "I5" 300]
    /\ commands st' 0%nat <> [SET ":1:k" "I5"]
    /\ db st' 0%nat !! ":1:k" = Some {| value := "I5"; expiry := Some 300 |}.
Proof.
  run_call. vm_compute. repeat split; discriminate.
Qed.

Lemma add_is_exclusive_witness :
  exists st1 st2,
    @DefaultClient.add toy_imports (Raw "k") (PyStr "v1") None None None (cached_state [])
    = Return true st1
    /\ db st1 0%nat !! ":1:k" = Some {| value := "Sv1"; expiry := Some 300 |}
    /\ @DefaultClient.add toy_imports (Raw "k") (PyStr "v2") None None None st1
       = Return false st2
    /\ db st2 0%nat = db st1 0%nat.
Proof.
  destruct (@add_is_exclusive toy_imports (cached_state []) (Raw "k") (PyStr "v1")
              (PyStr "v2") None None None None 0%nat eq_refl eq_refl eq_refl)
    as (st1 & st2 & Hadd1 & Hdb1 & Hadd2 & Hdb2 & _).
  exists st1, st2. repeat split; try assumption.
  rewrite Hdb1. reflexivity.
Defined.

Lemma incr_version_moves_key_witness :
  exists st',
    @DefaultClient.incr_version toy_imports (Raw "k") 1 None None
      (cached_state [(":1:k", {| value := "I7"; expiry := Some 100 |})])
    = Return 2 st'
    /\ db st' 0%nat !! ":1:k" = None
    /\ db st' 0%nat !! ":2:k" = Some {| value := "I7"; expiry := Some 100 |}.
Proof.
  destruct (proj1 (@incr_version_moves_key toy_imports
                     (cached_state [(":1:k", {| value := "I7"; expiry := Some 100 |})])
                     (Raw "k") 1 None None 0%nat eq_refl eq_refl)
              {| value := "I7"; expiry := Some 100 |} (PyInt 7) eq_refl eq_refl
              ltac:(discriminate))
    as (st' & kept & Hrun & _ & _ & Hold & Hnew & Hkept).
  exists st'. split; [exact Hrun|]. split; [exact Hold|].
  rewrite <- (Hkept 100 eq_refl eq_refl).
  apply Hnew. vm_compute. discriminate.
Defined.

(** C2 as stated fails: the key is present at the old version, with the
    pickled value [None], and [incr_version] raises the not-found error
    instead of moving it. *)
Lemma incr_version_none_value_counterexample :
  let st := cached_state [(":1:k", {| value := "N"; expiry := Some 100 |})] in
  db st 0%nat !! ":1:k" = Some {| value := "N"; expiry := Some 100 |}
  /\ exists st',
       @DefaultClient.incr_version toy_imports (Raw "k") 1 None None st
       = Raise (ValueError "Key 'k' not found") st'
       /\ db st' 0%nat !! ":2:k" = None.
Proof.
  split; [reflexivity|]. run_call. split; vm_compute; reflexivity.
Qed.

Lemma incr_and_clear_leak_connection_error_witness :
  @DefaultClient.incr toy_imports (Raw "k") 1 None None broken_state
  = Raise ConnectionError broken_state
  /\ @DefaultClient.clear toy_imports None broken_state
     = Raise ConnectionError broken_state
  /\ @DefaultClient.get toy_imports (Raw "k") PyNone None None broken_state
     = Raise (ConnectionInterrumped 0%nat) broken_state
  /\ @DefaultClient.has_key toy_imports (Raw "k") None None broken_state
     = Raise (ConnectionInterrumped 0%nat) broken_state
  /\ @DefaultClient.delete toy_imports (Raw "k") None None broken_state
     = Raise (ConnectionInterrumped 0%nat) broken_state.
Proof.
  apply (@incr_and_clear_leak_connection_error toy_imports broken_state (Raw "k") 1
           None None 0%nat); reflexivity.
Defined.

Lemma init_configuration_errors_witness :
  exists o,
    DefaultClient.__init__ (PyStr "localhost:6379") no_params (django_backend "" 300 1)
    = Ok o
    /\ _server o = PyStr "localhost:6379" /\ _client o = None.
Proof.
  apply (proj2 (proj2 (init_configuration_errors (PyStr "localhost:6379") no_params
                         (django_backend "" 300 1))) eq_refl (or_introl eq_refl)).
Defined.

(** C8 as stated fails: a connection string with two fields is not of
    the form host:port:db, yet construction succeeds.  The string is
    parsed when the connection is first needed, and what comes out then
    is [NameError]. *)
Lemma malformed_connection_string_counterexample :
  DefaultClient.__init__ (PyStr "localhost:6379") no_params (django_backend "" 300 1)
  = Ok (fresh_client "localhost:6379" (django_backend "" 300 1))
  /\ DefaultClient.parse_connection_string (PyStr "localhost:6379")
     = Err (NameError "connection_string")
  /\ @DefaultClient.client toy_imports malformed_state
     = Raise (NameError "connection_string") malformed_state.
Proof. repeat split. Qed.

Example parse_connection_string_tcp :
  DefaultClient.parse_connection_string (PyStr "127.0.0.1:6379:1")
  = Ok ("127.0.0.1", PyInt 6379, 1).
Proof. reflexivity. Qed.

Example parse_connection_string_unix :
  DefaultClient.parse_connection_string (PyStr "unix:/tmp/redis.sock:0")
  = Ok ("unix", PyStr "/tmp/redis.sock", 0).
Proof. reflexivity. Qed.

Example parse_connection_string_bad_port :
  DefaultClient.parse_connection_string (PyStr "localhost:port:1")
  = Err (NameError "connection_string").
Proof. reflexivity. Qed.

Lemma close_twice_fails_witness :
  exists st1,
    @DefaultClient.close toy_imports (cached_state []) = Return tt st1
    /\ exists e, @DefaultClient.close toy_imports st1 = Raise e st1.
Proof.
  eexists. split; [reflexivity|].
  apply (proj2 (@close_twice_fails toy_imports (cached_state []) _ eq_refl)).
Defined.

Example close_second_call :
  exists st1,
    @DefaultClient.close toy_imports (cached_state []) = Return tt st1
    /\ @DefaultClient.close toy_imports st1 = Raise (AttributeError "parser_class") st1.
Proof. eexists. split; reflexivity. Qed.

(** C10 as stated fails: with a server string and an option
    PICKLE_VERSION that is no integer, the constructor of [ShardClient]
    raises [ImproperlyConfigured], not an attribute error. *)
Lemma shard_client_pickle_version_counterexample :
  let params := {| OPTIONS := Some {[ "PICKLE_VERSION" := PyStr "two" ]} |} in
  truthy (PyStr "127.0.0.1:6379:1") = true
  /\ @ShardClient.__init__ toy_imports (PyStr "127.0.0.1:6379:1") params
       (django_backend "" 300 1)
     = Err (ImproperlyConfigured "PICKLE_VERSION value must be an integer")
  /\ forall attr,
       @ShardClient.__init__ toy_imports (PyStr "127.0.0.1:6379:1") params
         (django_backend "" 300 1)
       <> Err (AttributeError attr).
Proof. repeat split. intros attr. vm_compute. discriminate. Qed.

Example shard_client_init :
  @ShardClient.__init__ toy_imports (PyStr "127.0.0.1:6379:1") no_params
    (django_backend "" 300 1)
  = Err (AttributeError "_nodes").
Proof. reflexivity. Qed.

Lemma sharded_get_many_in_request_order_witness :
  exists st',
    @ShardClient.get_many toy_imports [Raw "a"; Raw "b"; Raw "c"] None three_shards
    = Return [(Raw "a", PyStr "x"); (Raw "c", PyInt 7)] st'.
Proof.
  destruct (@sharded_get_many_in_request_order toy_imports three_shards
              [Raw "a"; Raw "b"; Raw "c"] None) as (st' & Hrun & _).
  - intros k Hk.
    repeat (apply elem_of_cons in Hk as [->|Hk]); [| | |now apply elem_of_nil in Hk].
    + exists 1%nat. repeat split. intros e He. vm_compute in He.
      injection He as <-. now exists (PyStr "x").
    + exists 2%nat. repeat split. intros e He. vm_compute in He. discriminate.
    + exists 0%nat. repeat split. intros e He. vm_compute in He.
      injection He as <-. now exists (PyInt 7).
  - intros k1 k2 Hk1 Hk2 Hfk.
    repeat (apply elem_of_cons in Hk1 as [->|Hk1]); [| | |now apply elem_of_nil in Hk1];
      (repeat (apply elem_of_cons in Hk2 as [->|Hk2]); [| | |now apply elem_of_nil in Hk2]);
      try reflexivity; vm_compute in Hfk; discriminate.
  - exists st'. exact Hrun.
Defined.

Example sharded_get_many_repeated_key :
  exists st',
    @ShardClient.get_many toy_imports [Raw "c"; Raw "a"; Raw "c"] None three_shards
    = Return [(Raw "c", PyInt 7); (Raw "a", PyStr "x")] st'.
Proof. run_call. vm_compute. reflexivity. Qed.

Example default_get_many :
  exists st',
    @DefaultClient.get_many toy_imports [Raw "a"; Raw "b"; Raw "n"] None None
      (cached_state [(":1:n", {| value := "I5"; expiry := None |});
                     (":1:a", {| value := "Sx"; expiry := Some 10 |})])
    = Return [(Raw "a", PyStr "x"); (Raw "n", PyInt 5)] st'.
Proof. run_call. vm_compute. reflexivity. Qed.

Example default_delete_many :
  exists st',
    @DefaultClient.delete_many toy_imports [Raw "a"; Raw "n"] None None
      (cached_state [(":1:n", {| value := "I5"; expiry := None |});
                     (":1:a", {| value := "Sx"; expiry := Some 10 |})])
    = Return tt st'
    /\ db st' 0%nat = ∅
    /\ commands st' 0%nat = [DEL [":1:a"; ":1:n"]].
Proof. run_call. vm_compute. repeat split. Qed.

Example int_of_padded_string : int (PyStr " -12 ") = Ok (-12).
Proof. reflexivity. Qed.

Example int_of_word : int (PyStr "two") = Err (ValueError "invalid literal for int()").
Proof. reflexivity. Qed.

(** * Further properties of the facade *)

Section facade.
Context `{imports}.

(** [incr] and [decr] on a connection that is up. *)
Lemma incr_healthy st k delta version client c :
  connection_of st client = Some c -> healthy st c ->
  let b := _backend (self st) in
  let fk := full_key b k version in
  DefaultClient.incr k delta version client st
  = if bool_decide (is_Some (db st c !! fk)) then
      match decoded (db st c !! fk) PyNone with
      | Ok old =>
          match py_add old delta with
          | Ok v => Return v
                      (stored c fk (pickle_dumps v (_pickle_version (self st)))
                         (expiry_of_timeout b None)
                         (asked c (GET fk) (asked c (EXISTS fk) st)))
          | Err e => Raise e (asked c (GET fk) (asked c (EXISTS fk) st))
          end
      | Err e => Raise e (asked c (GET fk) (asked c (EXISTS fk) st))
      end
    else Raise (not_found fk) (asked c (EXISTS fk) st).
Proof.
  intros Hc Hh b fk. unfold DefaultClient.incr, bind.
  rewrite (client_or_default_connection _ _ _ Hc), make_key_run.
  cbn [str]. fold b fk. rewrite exists_healthy by assumption.
  destruct (bool_decide (is_Some (db st c !! fk))); cbn [negb]; [|reflexivity].
  rewrite (get_healthy _ _ _ _ _ c) by (try reflexivity; now apply healthy_asked).
  cbn [full_key]. rewrite db_asked.
  destruct (decoded (db st c !! fk) PyNone) as [old|e]; [|reflexivity].
  unfold lift. destruct (py_add old delta) as [v|e]; [|reflexivity].
  cbn [ret raise].
  rewrite (set_healthy _ _ _ _ _ _ c)
    by (try reflexivity; now apply healthy_asked, healthy_asked).
  reflexivity.
Qed.

Lemma decr_healthy st k delta version client c :
  _client (self st) = Some c -> connection_of st client = Some c -> healthy st c ->
  let b := _backend (self st) in
  let fk := full_key b k version in
  DefaultClient.decr k delta version client st
  = if bool_decide (is_Some (db st c !! fk)) then
      match decoded (db st c !! fk) PyNone with
      | Ok old =>
          match py_sub old delta with
          | Ok v => Return v
                      (stored c fk (pickle_dumps v (_pickle_version (self st)))
                         (expiry_of_timeout b None)
                         (asked c (GET fk) (asked c (EXISTS fk) st)))
          | Err e => Raise e (asked c (GET fk) (asked c (EXISTS fk) st))
          end
      | Err e => Raise e (asked c (GET fk) (asked c (EXISTS fk) st))
      end
    else Raise (not_found fk) (asked c (EXISTS fk) st).
Proof.
  intros Hcached Hc Hh b fk. unfold DefaultClient.decr, bind.
  rewrite (client_or_default_connection _ _ _ Hc), make_key_run.
  rewrite (has_key_healthy _ _ _ _ c) by assumption.
  cbn [str full_key]. fold b fk.
  destruct (bool_decide (is_Some (db st c !! fk))); cbn [negb]; [|reflexivity].
  rewrite (get_healthy _ _ _ _ _ c) by (try reflexivity; now apply healthy_asked).
  cbn [full_key]. rewrite db_asked.
  destruct (decoded (db st c !! fk) PyNone) as [old|e]; [|reflexivity].
  unfold lift. destruct (py_sub old delta) as [v|e]; [|reflexivity].
  cbn [ret raise].
  rewrite (set_healthy _ _ _ _ _ _ c)
    by (try reflexivity; now apply healthy_asked, healthy_asked).
  reflexivity.
Qed.

(** X1.  What [set] stores, [get] gives back: after [set] of a value
    that the codec can read again, [get] with the same key and version
    returns the value, whatever the default, [has_key] answers true, and
    no other key of the database has changed. *)
Theorem set_then_get st k v timeout version client c default :
  connection_of st client = Some c -> healthy st c ->
  pickle_loads (pickle_dumps v (_pickle_version (self st))) = Ok v ->
  let fk := full_key (_backend (self st)) k version in
  exists st1 st2 st3,
    DefaultClient.set k v timeout version client st = Return true st1
    /\ DefaultClient.get k default version client st1 = Return v st2
    /\ DefaultClient.has_key k version client st2 = Return true st3
    /\ forall k', k' <> fk -> db st3 c !! k' = db st c !! k'.
Proof.
  intros Hc Hh Hv fk. eexists _, _, _.
  split; [apply set_healthy; eassumption|].
  split.
  { rewrite (get_healthy _ _ _ _ _ c) by (first [exact Hc | now apply healthy_stored]).
    cbn [self stored commit]. fold fk. rewrite db_stored, lookup_insert_eq.
    cbn [decoded value]. rewrite Hv. reflexivity. }
  split.
  { rewrite (has_key_healthy _ _ _ _ c)
      by (first [exact Hc | now apply healthy_asked, healthy_stored]).
    cbn [self stored asked commit]. fold fk.
    rewrite db_asked, db_stored, lookup_insert_eq.
    rewrite bool_decide_eq_true_2 by eauto. reflexivity. }
  intros k' Hne. rewrite !db_asked, db_stored. now apply lookup_insert_ne.
Qed.

(** X2.  [delete] removes the key and nothing else: afterwards [get]
    returns the default of the caller, [has_key] answers false, and
    every other key of the database is as before; this holds whether or
    not the key existed. *)
Theorem delete_then_get st k version client c default :
  connection_of st client = Some c -> healthy st c ->
  let fk := full_key (_backend (self st)) k version in
  exists st1 st2 st3,
    DefaultClient.delete k version client st = Return tt st1
    /\ DefaultClient.get k default version client st1 = Return default st2
    /\ DefaultClient.has_key k version client st2 = Return false st3
    /\ commands st3 c = commands st c ++ [DEL [fk]; GET fk; EXISTS fk]
    /\ forall k', k' <> fk -> db st3 c !! k' = db st c !! k'.
Proof.
  intros Hc Hh fk. eexists _, _, _.
  split; [apply delete_healthy; eassumption|].
  split.
  { rewrite (get_healthy _ _ _ _ _ c) by (first [exact Hc | now apply healthy_commit]).
    cbn [self commit]. fold fk. rewrite db_commit, lookup_delete_eq. reflexivity. }
  split.
  { rewrite (has_key_healthy _ _ _ _ c)
      by (first [exact Hc | now apply healthy_asked, healthy_commit]).
    cbn [self asked commit]. fold fk.
    rewrite db_asked, db_commit, lookup_delete_eq.
    rewrite bool_decide_eq_false_2 by (intros [? [=]]). reflexivity. }
  split.
  { unfold asked. rewrite !commands_commit, <- !app_assoc. reflexivity. }
  intros k' Hne. rewrite !db_asked, db_commit. now apply lookup_delete_ne.
Qed.

(** X3.  On the cached connection of the client, that is, in calls
    without [client] or with the cached connection as [client], [incr]
    followed by [decr] with the same delta gives the first value back:
    on a key that holds the integer [n], [incr] returns [n + delta] and
    the following [decr] returns [n]; the key then holds [n] again, now
    with the default timeout of the backend in place of its former time
    to live. *)
Theorem incr_then_decr st k delta version client c e n :
  _client (self st) = Some c -> client = None \/ client = Some c ->
  healthy st c ->
  let b := _backend (self st) in
  let fk := full_key b k version in
  let pv := _pickle_version (self st) in
  db st c !! fk = Some e -> pickle_loads (value e) = Ok (PyInt n) ->
  pickle_loads (pickle_dumps (PyInt (n + delta)) pv) = Ok (PyInt (n + delta)) ->
  exists st1 st2,
    DefaultClient.incr k delta version client st = Return (PyInt (n + delta)) st1
    /\ DefaultClient.decr k delta version client st1 = Return (PyInt n) st2
    /\ db st2 c
       = <[fk := {| value := pickle_dumps (PyInt n) pv;
                    expiry := expiry_of_timeout b None |}]> (db st c).
Proof.
  intros Hcached Hclient Hh b fk pv He Hn Hrt.
  assert (Hc : connection_of st client = Some c)
    by (destruct Hclient as [-> | ->]; [exact Hcached | reflexivity]).
  eexists _, _. split.
  { rewrite (incr_healthy _ _ _ _ _ c) by assumption. fold b fk. rewrite He.
    rewrite bool_decide_eq_true_2 by eauto. cbn [decoded]. rewrite Hn. reflexivity. }
  split.
  { rewrite (decr_healthy _ _ _ _ _ c)
      by (first [exact Hcached | exact Hc
                | now apply healthy_stored, healthy_asked, healthy_asked]).
    cbn [self stored asked commit]. fold b fk pv.
    rewrite db_stored, !db_asked, lookup_insert_eq.
    rewrite bool_decide_eq_true_2 by eauto. cbn [decoded value]. rewrite Hrt.
    cbn [py_sub]. replace (n + delta - delta) with n by lia. reflexivity. }
  rewrite db_stored, !db_asked, db_stored, !db_asked.
  apply insert_insert_eq.
Qed.

End facade.

(** ** Filling a [SortedDict] from the keys that have a value *)

Section merge_values.
Context {V : Type} (val : key -> option V).

Lemma entry_opt_some k v : val k = Some v -> entry_opt val k = Some (k, v).
Proof. unfold entry_opt. now intros ->. Qed.

Lemma entry_opt_none k : val k = None -> entry_opt val k = None.
Proof. unfold entry_opt. now intros ->. Qed.

Lemma set_held k v (l : list key) :
  k ∈ l -> val k = Some v ->
  sorted_dict_set k v (omap (entry_opt val) l) = omap (entry_opt val) l.
Proof.
  intros Hin Hv. induction l as [|x l IH]; [now apply elem_of_nil in Hin|].
  cbn [omap list_omap]. destruct (decide (x = k)) as [->|Hne].
  - rewrite (entry_opt_some k v Hv). cbn. now rewrite decide_True.
  - assert (Hl : k ∈ l) by (apply elem_of_cons in Hin as [->|]; [contradiction|assumption]).
    specialize (IH Hl).
    destruct (val x) as [vx|] eqn:Hx;
      [rewrite (entry_opt_some x vx Hx)|rewrite (entry_opt_none x Hx); exact IH].
    cbn. rewrite decide_False by assumption. now rewrite IH.
Qed.

Lemma set_new k v (l : list key) :
  k ∉ l ->
  sorted_dict_set k v (omap (entry_opt val) l) = omap (entry_opt val) l ++ [(k, v)].
Proof.
  intros Hin. induction l as [|x l IH]; [reflexivity|].
  apply not_elem_of_cons in Hin as [Hne Hl]. specialize (IH Hl).
  cbn [omap list_omap].
  destruct (val x) as [vx|] eqn:Hx;
    [rewrite (entry_opt_some x vx Hx)|rewrite (entry_opt_none x Hx); exact IH].
  cbn. rewrite decide_False by congruence. now rewrite IH.
Qed.

Lemma entries_skip_missing k (P : key -> Prop) `{!forall x, Decision (P x)}
    (l : list key) :
  val k = None ->
  omap (entry_opt val) (filter P (filter (fun k' => k' <> k) l))
  = omap (entry_opt val) (filter P l).
Proof.
  intros Hk. induction l as [|x l IH]; [reflexivity|].
  rewrite !filter_cons. destruct (decide (x <> k)) as [Hne|Heq].
  - rewrite filter_cons. destruct (decide (P x)); [|exact IH].
    cbn [omap list_omap]. now rewrite IH.
  - apply dec_stable in Heq as ->. rewrite IH.
    destruct (decide (P k)); [|reflexivity]. cbn [omap list_omap].
    now rewrite (entry_opt_none k Hk).
Qed.

Lemma merge_values_from seen ks :
  foldl (merge_opt val) (omap (entry_opt val) seen) ks
  = omap (entry_opt val) (seen ++ filter (fun x => x ∉ seen) (first_occurrences ks)).
Proof.
  revert seen. induction ks as [|k ks IH]; intros seen.
  - cbn. now rewrite app_nil_r.
  - cbn [foldl first_occurrences]. unfold merge_opt at 2. rewrite filter_cons.
    destruct (val k) as [v|] eqn:Hk.
    + destruct (decide (k ∈ seen)) as [Hin|Hin].
      * rewrite set_held, IH by assumption. rewrite filter_seen by assumption.
        destruct (decide (k ∉ seen)); [contradiction|reflexivity].
      * rewrite set_new by assumption.
        replace (omap (entry_opt val) seen ++ [(k, v)])
          with (omap (entry_opt val) (seen ++ [k]))
          by (rewrite omap_app; cbn; now rewrite (entry_opt_some k v Hk)).
        rewrite IH, (filter_seen_more (fun _ => PyNone)), <- app_assoc.
        destruct (decide (k ∉ seen)); [reflexivity|contradiction].
    + rewrite IH, !omap_app. f_equal.
      destruct (decide (k ∉ seen)).
      * cbn [omap list_omap]. rewrite (entry_opt_none k Hk).
        now rewrite entries_skip_missing.
      * now rewrite entries_skip_missing.
Qed.

Lemma merge_values_in_request_order ks :
  foldl (merge_opt val) [] ks = omap (entry_opt val) (first_occurrences ks).
Proof.
  pose proof (merge_values_from [] ks) as Hm. cbn [omap list_omap app] in Hm.
  now rewrite Hm, filter_seen_nil.
Qed.

End merge_values.

Lemma lookup_foldr_delete (d : gmap string entry) (ks : list string) (k : string) :
  foldr (fun k m => delete k m) d ks !! k = if decide (k ∈ ks) then None else d !! k.
Proof.
  induction ks as [|x ks IH]; cbn [foldr].
  - now rewrite decide_False by apply not_elem_of_nil.
  - destruct (decide (x = k)) as [->|Hne].
    + rewrite lookup_delete_eq. now rewrite decide_True by now left.
    + rewrite lookup_delete_ne, IH by assumption.
      destruct (decide (k ∈ ks)) as [Hin|Hin].
      * now rewrite decide_True by now right.
      * rewrite decide_False; [reflexivity|]. rewrite elem_of_cons. intros [->|?]; tauto.
Qed.

Section bulk.
Context `{imports}.

Lemma str_cache_keys (fk : key -> string) (ks : list key) :
  str <$> ((fun k => CacheKey (fk k)) <$> ks) = fk <$> ks.
Proof. induction ks as [|k ks IH]; [reflexivity|]. cbn. now rewrite IH. Qed.

(** The loop of [get_many] on the answers of MGET. *)
Lemma get_many_loop_run (d : gmap string entry) (fk : key -> string)
    (map_keys : gmap string key) (ks : list key) st :
  (forall k e, k ∈ ks -> d !! fk k = Some e -> exists v, pickle_loads (value e) = Ok v) ->
  (forall k, k ∈ ks -> map_keys !! fk k = Some k) ->
  forall acc,
    DefaultClient.get_many_loop map_keys
      (zip ((fun k => CacheKey (fk k)) <$> ks) ((fun k => value <$> d !! k) <$> (fk <$> ks)))
      acc st
    = Return (foldl (merge_opt (fun k =>
                 match d !! fk k with
                 | Some e => match pickle_loads (value e) with Ok v => Some v | Err _ => None end
                 | None => None
                 end)) acc ks) st.
Proof.
  intros Hdec Hmap. induction ks as [|k ks IH]; intros acc; [reflexivity|].
  cbn [fmap list_fmap zip zip_with foldl DefaultClient.get_many_loop].
  unfold merge_opt at 2.
  assert (IH' := IH (fun k e Hk => Hdec k e (list_elem_of_further _ _ _ Hk))
                    (fun k Hk => Hmap k (list_elem_of_further _ _ _ Hk))).
  destruct (d !! fk k) as [e|] eqn:He; cbn [fmap option_fmap option_map].
  - destruct (Hdec k e (list_elem_of_here _ _) He) as [v Hv].
    unfold bind, DefaultClient.unpickle, lift. rewrite Hv. cbn [ret str].
    rewrite (Hmap k) by now left. apply IH'.
  - apply IH'.
Qed.

(** X4.  [get_many] of [DefaultClient] sends one MGET for all the
    versioned keys and returns, in the order of the request (a repeated
    key at its first place), every requested key that the database
    holds, with its unpickled value; a key that holds a pickled [None]
    is in the result with the value [None].  An empty request sends
    nothing.  The database is as before. *)
Theorem get_many_in_request_order st ks version client c :
  connection_of st client = Some c -> healthy st c ->
  let fk k := full_key (_backend (self st)) k version in
  (forall k e, k ∈ ks -> db st c !! fk k = Some e ->
               exists v, pickle_loads (value e) = Ok v) ->
  (forall k1 k2, k1 ∈ ks -> k2 ∈ ks -> fk k1 = fk k2 -> k1 = k2) ->
  exists st',
    DefaultClient.get_many ks version client st
    = Return (omap (entry_opt (fun k => held st c (fk k))) (first_occurrences ks)) st'
    /\ db st' c = db st c
    /\ commands st' c = commands st c ++ match ks with
                                         | [] => []
                                         | _ => [MGET (fk <$> ks)]
                                         end.
Proof.
  intros Hc Hh fk Hdec Hinj.
  destruct ks as [|k0 ks0] eqn:Hks.
  { exists st. unfold DefaultClient.get_many, bind.
    rewrite (client_or_default_connection _ _ _ Hc). now rewrite app_nil_r. }
  rewrite <- Hks in *. exists (asked c (MGET (fk <$> ks)) st).
  split; [|split; [apply db_asked|rewrite Hks; apply commands_commit]].
  rewrite <- merge_values_in_request_order.
  assert (Hrun : DefaultClient.get_many ks version client st
    = DefaultClient.get_many_loop
        (dict_of_pairs (zip (fk <$> ks) ks))
        (zip ((fun k => CacheKey (fk k)) <$> ks)
             ((fun k => value <$> db st c !! k) <$> (fk <$> ks)))
        [] (asked c (MGET (fk <$> ks)) st)).
  { rewrite Hks at 1. unfold DefaultClient.get_many, bind.
    rewrite (client_or_default_connection _ _ _ Hc), <- Hks, make_keys_run.
    fold fk. rewrite !str_cache_keys.
    unfold interrumped, Conn.mget. rewrite run_command_healthy by assumption.
    reflexivity. }
  rewrite Hrun. apply (get_many_loop_run (db st c) fk); [exact Hdec|].
  intros k Hk. now apply (dict_of_pairs_lookup fk ks k).
Qed.

(** X5.  [delete_many] with an empty list sends nothing; with keys it
    sends a single DEL for all the versioned keys, after which none of
    them exists and every other key of the database is as before. *)
Theorem delete_many_removes st ks version client c :
  connection_of st client = Some c -> healthy st c ->
  let fk k := full_key (_backend (self st)) k version in
  exists st',
    DefaultClient.delete_many ks version client st = Return tt st'
    /\ commands st' c = commands st c ++ match ks with
                                         | [] => []
                                         | _ => [DEL (fk <$> ks)]
                                         end
    /\ (forall k, k ∈ ks -> db st' c !! fk k = None)
    /\ (forall k', k' ∉ fk <$> ks -> db st' c !! k' = db st c !! k').
Proof.
  intros Hc Hh fk.
  destruct ks as [|k0 ks0] eqn:Hks.
  { exists st. unfold DefaultClient.delete_many, bind.
    rewrite (client_or_default_connection _ _ _ Hc).
    split; [reflexivity|]. split; [now rewrite app_nil_r|].
    split; [intros k Hk; now apply elem_of_nil in Hk|reflexivity]. }
  rewrite <- Hks in *.
  exists (commit c (DEL (fk <$> ks))
            (foldr (fun k m => delete k m) (db st c) (fk <$> ks)) st).
  split.
  { rewrite Hks at 1. unfold DefaultClient.delete_many, bind.
    rewrite (client_or_default_connection _ _ _ Hc), <- Hks, make_keys_run.
    fold fk. rewrite str_cache_keys.
    unfold interrumped, Conn.delete. rewrite run_command_healthy by assumption.
    reflexivity. }
  split; [rewrite Hks; apply commands_commit|].
  rewrite db_commit. split.
  - intros k Hk. rewrite lookup_foldr_delete, decide_True; [reflexivity|].
    now apply list_elem_of_fmap_2.
  - intros k' Hk'. now rewrite lookup_foldr_delete, decide_False.
Qed.

End bulk.

(** ** Calls without a connection *)

Lemma parse_connection_string_errors (v : pyval) :
  (exists r, DefaultClient.parse_connection_string v = Ok r)
  \/ DefaultClient.parse_connection_string v = Err (NameError "connection_string")
  \/ DefaultClient.parse_connection_string v = Err (AttributeError "split").
Proof.
  unfold DefaultClient.parse_connection_string.
  destruct v as [| | |s]; try (right; right; reflexivity).
  destruct (split ":" s) as [|host [|port [|db [|x l]]]]; cbn; try (right; left; reflexivity).
  destruct (String.eqb host "unix"); cbn.
  - destruct (int_of_string db); cbn; eauto.
  - destruct (int_of_string port); cbn; [|right; left; reflexivity].
    destruct (int_of_string db); cbn; eauto.
Qed.

Lemma connect_error_not_raw (server : pyval) : connect_error server <> ConnectionError.
Proof.
  unfold connect_error.
  destruct (parse_connection_string_errors server) as [[r ->] | [-> | ->]]; discriminate.
Qed.

Section uncached.
Context `{imports}.

Lemma client_uncached st :
  _client (self st) = None ->
  DefaultClient.client st = Raise (connect_error (_server (self st))) st.
Proof.
  intros Hn. unfold DefaultClient.client, bind, get_self. rewrite Hn.
  unfold DefaultClient.connect, bind, get_self, lift, connect_error.
  now destruct (DefaultClient.parse_connection_string (_server (self st))).
Qed.

(** X6.  A [DefaultClient] as [__init__] builds it serves no call made
    without the [client] argument: whatever the connections are, each
    operation raises the error of the first connection attempt
    ([NameError] when the server setting does not parse, else the
    [AttributeError] of [self.parser_class]) and leaves the client and
    the connections as they were. *)
Theorem fresh_client_serves_no_call server params backend o (r : gmap conn_id conn) :
  DefaultClient.__init__ server params backend = Ok o ->
  let st := {| self := o; redis := r |} in
  let e := connect_error server in
  (forall k v timeout version, DefaultClient.set k v timeout version None st = Raise e st)
  /\ (forall k default version, DefaultClient.get k default version None st = Raise e st)
  /\ (forall k v timeout version, DefaultClient.add k v timeout version None st = Raise e st)
  /\ (forall k version, DefaultClient.delete k version None st = Raise e st)
  /\ (forall ks version, DefaultClient.delete_many ks version None st = Raise e st)
  /\ (forall ks version, DefaultClient.get_many ks version None st = Raise e st)
  /\ (forall k version, DefaultClient.has_key k version None st = Raise e st)
  /\ (forall k delta version, DefaultClient.incr k delta version None st = Raise e st)
  /\ (forall k delta version, DefaultClient.decr k delta version None st = Raise e st)
  /\ (forall k delta version,
        DefaultClient.incr_version k delta version None st = Raise e st)
  /\ DefaultClient.clear None st = Raise e st
  /\ DefaultClient.close st = Raise e st.
Proof.
  intros Hinit st e.
  apply init_attributes in Hinit as (Hserver & _ & Hclient & _).
  assert (Hraise : DefaultClient.client st = Raise e st).
  { unfold e. rewrite <- Hserver. now apply client_uncached. }
  repeat split; intros;
    unfold DefaultClient.set, DefaultClient.get, DefaultClient.add, DefaultClient.delete,
      DefaultClient.delete_many, DefaultClient.get_many, DefaultClient.has_key,
      DefaultClient.incr, DefaultClient.decr, DefaultClient.incr_version,
      DefaultClient.clear, DefaultClient.close, DefaultClient.client_or_default, bind;
    now rewrite Hraise.
Qed.

(** ** Transport failures, whenever they come *)

Lemma never_raw_ret {A} (a : A) : never_raw (ret a).
Proof. intros st st'. discriminate. Qed.

Lemma never_raw_raise {A} (e : exn) : e <> ConnectionError -> never_raw (@raise A e).
Proof. intros He st st' [= ? ?]. contradiction. Qed.

Lemma never_raw_bind {A B} (m : M A) (k : A -> M B) :
  never_raw m -> (forall a, never_raw (k a)) -> never_raw (bind m k).
Proof.
  intros Hm Hk st st'. unfold bind. destruct (m st) as [a s|e s] eqn:Hr.
  - apply Hk.
  - intros [= -> ->]. now apply (Hm st st').
Qed.

Lemma never_raw_interrumped {A} c (m : M A) : never_raw (interrumped c m).
Proof. intros st st'. apply interrumped_wraps. Qed.

Lemma never_raw_lift {A} (r : result A) : r <> Err ConnectionError -> never_raw (lift r).
Proof.
  intros Hr st st'. destruct r as [a|e]; cbn; [discriminate|].
  intros [= -> _]. contradiction.
Qed.

Lemma never_raw_get_self : never_raw get_self.
Proof. intros st st'. discriminate. Qed.

Lemma never_raw_client : never_raw DefaultClient.client.
Proof.
  intros st st'. destruct (_client (self st)) as [c|] eqn:Hc.
  - unfold DefaultClient.client, bind, get_self. rewrite Hc. discriminate.
  - rewrite client_uncached by assumption. intros [= He _].
    now apply connect_error_not_raw in He.
Qed.

Lemma never_raw_client_or_default client :
  never_raw (DefaultClient.client_or_default client).
Proof. destruct client; [apply never_raw_ret|apply never_raw_client]. Qed.

Lemma never_raw_make_key k version : never_raw (DefaultClient.make_key k version).
Proof. intros st st'. rewrite make_key_run. discriminate. Qed.

Lemma never_raw_make_keys ks version : never_raw (DefaultClient.make_keys ks version).
Proof. intros st st'. rewrite make_keys_run. discriminate. Qed.

Lemma never_raw_if {A} (b : bool) (m1 m2 : M A) :
  never_raw m1 -> never_raw m2 -> never_raw (if b then m1 else m2).
Proof. now destruct b. Qed.

Create HintDb never_raw.

#[local] Hint Resolve never_raw_ret never_raw_interrumped never_raw_get_self
  never_raw_client_or_default never_raw_make_key never_raw_make_keys : never_raw.

Ltac never_raw_step :=
  repeat first
    [ solve [auto with never_raw]
    | apply never_raw_raise; discriminate
    | apply never_raw_if
    | apply never_raw_bind; [|intros ?] ].

Section codec.
Hypothesis loads_not_raw : forall bytes, pickle_loads bytes <> Err ConnectionError.

Lemma never_raw_unpickle bytes : never_raw (DefaultClient.unpickle bytes).
Proof. apply never_raw_lift, loads_not_raw. Qed.

Lemma never_raw_set k v timeout version client :
  never_raw (DefaultClient.set k v timeout version client).
Proof. unfold DefaultClient.set, DefaultClient.pickle. never_raw_step. Qed.

Lemma never_raw_get k default version client :
  never_raw (DefaultClient.get k default version client).
Proof.
  unfold DefaultClient.get. never_raw_step.
  destruct a1; [apply never_raw_unpickle|apply never_raw_ret].
Qed.

Lemma never_raw_delete k version client :
  never_raw (DefaultClient.delete k version client).
Proof. unfold DefaultClient.delete. never_raw_step. Qed.

Lemma never_raw_has_key k version client :
  never_raw (DefaultClient.has_key k version client).
Proof. unfold DefaultClient.has_key. never_raw_step. Qed.

Lemma never_raw_get_many_loop map_keys pairs acc :
  never_raw (DefaultClient.get_many_loop map_keys pairs acc).
Proof.
  revert acc. induction pairs as [|[k [bytes|]] pairs IH]; intros acc;
    cbn [DefaultClient.get_many_loop]; [apply never_raw_ret| |apply IH].
  apply never_raw_bind; [apply never_raw_unpickle|]. intros v.
  destruct (map_keys !! str k); [apply IH|apply never_raw_raise; discriminate].
Qed.

#[local] Hint Resolve never_raw_unpickle never_raw_set never_raw_get never_raw_delete
  never_raw_has_key never_raw_get_many_loop : never_raw.

(** X7.  Whatever the state of the connections, and whenever their
    transport fails, [get], [set], [add], [delete], [delete_many],
    [get_many], [has_key], [decr] and [incr_version] never raise the
    [ConnectionError] of the connection itself, provided the codec does
    not raise it. *)
Theorem wrapped_operations_never_leak :
  (forall k v timeout version client,
      never_raw (DefaultClient.set k v timeout version client))
  /\ (forall k default version client,
      never_raw (DefaultClient.get k default version client))
  /\ (forall k v timeout version client,
      never_raw (DefaultClient.add k v timeout version client))
  /\ (forall k version client, never_raw (DefaultClient.delete k version client))
  /\ (forall ks version client, never_raw (DefaultClient.delete_many ks version client))
  /\ (forall ks version client, never_raw (DefaultClient.get_many ks version client))
  /\ (forall k version client, never_raw (DefaultClient.has_key k version client))
  /\ (forall k delta version client,
      never_raw (DefaultClient.decr k delta version client))
  /\ (forall k delta version client,
      never_raw (DefaultClient.incr_version k delta version client)).
Proof.
  split; [exact never_raw_set|]. split; [exact never_raw_get|]. split.
  { intros. unfold DefaultClient.add. never_raw_step. }
  split; [exact never_raw_delete|]. split.
  { intros. unfold DefaultClient.delete_many. never_raw_step.
    destruct ks; never_raw_step. }
  split.
  { intros. unfold DefaultClient.get_many. never_raw_step.
    destruct ks; never_raw_step. }
  split; [exact never_raw_has_key|]. split.
  { intros. unfold DefaultClient.decr. never_raw_step.
    apply never_raw_lift. destruct a2; discriminate. }
  intros. unfold DefaultClient.incr_version. never_raw_step.
  destruct a2; never_raw_step; destruct k; never_raw_step.
Qed.

End codec.
End uncached.

(** ** A failure in the middle of a call *)

Lemma run_command_alive {A} c cmd (reply : gmap string entry -> A * gmap string entry) st :
  alive st c ->
  run_command c cmd reply st
  = Return (reply (db st c)).1 (commit c cmd (reply (db st c)).2 st).
Proof.
  unfold alive, run_command, db. intros Ha.
  destruct (fail_in (redis st !!! c)) as [[|n]|]; [contradiction| |];
    now destruct (reply _).
Qed.

Lemma fail_in_commit c cmd d st :
  fail_in (redis (commit c cmd d st) !!! c) = Nat.pred <$> fail_in (redis st !!! c).
Proof. unfold commit. cbn. now rewrite lookup_total_insert_eq. Qed.

Section partial.
Context `{imports}.

(** X8.  [incr_version] is not atomic.  When the transport lets three
    commands through and fails on the fourth, the call has read the
    value and the time to live and has stored the value under the new
    version; the DEL of the old key fails, the call raises
    [ConnectionInterrumped], and the value is left under both versions. *)
Theorem incr_version_fails_after_write st k delta version client c e v :
  connection_of st client = Some c ->
  fail_in (redis st !!! c) = Some 3%nat ->
  let b := _backend (self st) in
  let ver := default (backend_version b) version in
  let old := full_key b k (Some ver) in
  let new := new_key_of b k (ver + delta) in
  db st c !! old = Some e -> pickle_loads (value e) = Ok v -> v <> PyNone ->
  new <> old ->
  exists st',
    DefaultClient.incr_version k delta version client st
    = Raise (ConnectionInterrumped c) st'
    /\ commands st' c
       = commands st c
         ++ [GET old; TTL old;
             set_command new (pickle_dumps v (_pickle_version (self st)))
               (expiry_of_timeout b (expiry e))]
    /\ db st' c !! old = Some e
    /\ db st' c !! new
       = Some {| value := pickle_dumps v (_pickle_version (self st));
                 expiry := expiry_of_timeout b (expiry e) |}.
Proof.
  intros Hc Hf b ver old new He Hv Hnone Hne.
  set (st1 := asked c (GET old) st).
  set (st2 := asked c (TTL old) st1).
  set (bytes := pickle_dumps v (_pickle_version (self st))).
  set (kept := expiry_of_timeout b (expiry e)).
  set (st3 := stored c new bytes kept st2).
  assert (Hf1 : fail_in (redis st1 !!! c) = Some 2%nat)
    by (unfold st1, asked; now rewrite fail_in_commit, Hf).
  assert (Hf2 : fail_in (redis st2 !!! c) = Some 1%nat)
    by (unfold st2, asked; now rewrite fail_in_commit, Hf1).
  assert (Hf3 : fail_in (redis st3 !!! c) = Some 0%nat)
    by (unfold st3, stored; now rewrite fail_in_commit, Hf2).
  assert (Hd1 : db st1 c = db st c) by apply db_asked.
  assert (Hd2 : db st2 c = db st c) by (unfold st2; now rewrite db_asked).
  assert (Hd3 : db st3 c = <[new := {| value := bytes; expiry := kept |}]> (db st c))
    by (unfold st3; now rewrite db_stored, Hd2).
  exists st3. split.
  { unfold DefaultClient.incr_version, bind.
    rewrite (client_or_default_connection _ _ _ Hc). cbn [get_self].
    fold b ver. rewrite make_key_run. fold b old.
    unfold DefaultClient.get, bind. cbn [DefaultClient.client_or_default ret].
    rewrite make_key_run. cbn [full_key str].
    unfold interrumped, Conn.get, Conn.ttl.
    rewrite run_command_alive by (unfold alive; rewrite Hf; discriminate).
    cbn [fst snd]. rewrite He. cbn [fmap option_fmap option_map value].
    unfold DefaultClient.unpickle, lift. rewrite Hv. cbn [ret].
    fold (asked c (GET old) st). fold st1.
    rewrite run_command_alive by (unfold alive; rewrite Hf1; discriminate).
    cbn [fst snd].
    assert (He1 : db st1 c !! old = Some e) by now rewrite Hd1.
    rewrite He1. cbn [mbind option_bind].
    fold (asked c (TTL old) st1). fold st2.
    assert (Hnew : match k with
      | CacheKey s => DefaultClient.make_key (Raw (original_key s)) (Some (ver + delta))
      | Raw _ => DefaultClient.make_key k (Some (ver + delta))
      end st2 = Return (CacheKey new) st2).
    { unfold new, new_key_of, b. now destruct k. }
    assert (Hset : DefaultClient.set (CacheKey new) v (expiry e) None (Some c) st2
                   = Return true st3).
    { unfold DefaultClient.set, bind. cbn [DefaultClient.client_or_default ret].
      rewrite make_key_run. cbn [full_key str DefaultClient.pickle bind get_self ret].
      unfold DefaultClient.pickle, bind, get_self, ret, interrumped.
      unfold st3, stored, kept, expiry_of_timeout, bytes.
      cbn [self st2 st1 asked commit]. fold b.
      destruct (0 <? default (default_timeout b) (expiry e));
        unfold Conn.setex, Conn.set;
        rewrite run_command_alive by (unfold alive; rewrite Hf2; discriminate);
        reflexivity. }
    assert (Hdel : DefaultClient.delete (CacheKey old) None (Some c) st3
                   = Raise (ConnectionInterrumped c) st3).
    { unfold DefaultClient.delete, bind. cbn [DefaultClient.client_or_default ret].
      unfold interrumped, bind. rewrite make_key_run. unfold Conn.delete.
      now rewrite run_command_down. }
    destruct v; try contradiction; now rewrite Hnew, Hset, Hdel. }
  split.
  { unfold st3, stored, st2, st1, asked. rewrite !commands_commit, <- !app_assoc.
    reflexivity. }
  rewrite Hd3. split.
  - rewrite lookup_insert_ne by assumption. exact He.
  - apply lookup_insert_eq.
Qed.

(** X9.  The pickle protocol comes from the options: a client built by
    [__init__] pickles every value it stores with the integer value of
    the option PICKLE_VERSION, and with -1 when the option is absent. *)
Theorem set_uses_configured_pickle_version server params backend o
    (r : gmap conn_id conn) k v timeout version c :
  DefaultClient.__init__ server params backend = Ok o ->
  let st := {| self := o; redis := r |} in
  healthy st c ->
  _pickle_version o = configured_version params
  /\ exists st',
       DefaultClient.set k v timeout version (Some c) st = Return true st'
       /\ value <$> db st' c !! full_key backend k version
          = Some (pickle_dumps v (configured_version params)).
Proof.
  intros Hinit st Hh.
  assert (Hpv : _pickle_version o = configured_version params
                /\ _backend o = backend).
  { revert Hinit. unfold DefaultClient.__init__, DefaultClient.setup_pickle_version,
      configured_version.
    destruct (negb (truthy server)); [discriminate|]. cbn.
    destruct (default ∅ (OPTIONS params) !! "PICKLE_VERSION") as [x|].
    - destruct (int x) as [n|[]]; cbn; intros [= <-]; now cbn.
    - intros [= <-]. now cbn. }
  destruct Hpv as [Hpv Hb]. split; [exact Hpv|].
  eexists. split; [now apply (set_healthy st _ _ _ _ (Some c) c)|].
  rewrite db_stored. cbn [self st]. rewrite Hb, lookup_insert_eq, Hpv. reflexivity.
Qed.

End partial.

(** ** Connection strings and versioned keys *)

Lemma length_split (sep : ascii) (s : string) :
  length (split sep s) = S (count_char sep s).
Proof.
  induction s as [|c s IH]; [reflexivity|]. cbn [split count_char].
  destruct (Ascii.eqb c sep); cbn [length]; [now rewrite IH|].
  destruct (split sep s) as [|h t]; [discriminate|]. cbn in *. lia.
Qed.

Lemma split_whole (sep : ascii) (a : string) :
  ~ occurs sep a -> split sep a = [a].
Proof.
  induction a as [|c a IH]; intros Hn; [reflexivity|]. cbn [split].
  rewrite Ascii.eqb_sym, (eqb_other _ _ _ Hn), (IH (occurs_tail _ _ _ Hn)). reflexivity.
Qed.

Lemma split_field (sep : ascii) (a b : string) :
  ~ occurs sep a -> split sep (a +:+ String sep b) = a :: split sep b.
Proof.
  induction a as [|c a IH]; intros Hn.
  - change ("" +:+ ?x) with x. cbn [split]. now rewrite Ascii.eqb_refl.
  - rewrite app_cons. cbn [split].
    rewrite Ascii.eqb_sym, (eqb_other _ _ _ Hn), (IH (occurs_tail _ _ _ Hn)). reflexivity.
Qed.

Lemma parse_needs_two_colons (s : string) :
  count_char ":" s <> 2%nat ->
  DefaultClient.parse_connection_string (PyStr s) = Err (NameError "connection_string").
Proof.
  intros Hs. unfold DefaultClient.parse_connection_string.
  pose proof (length_split ":" s) as Hlen.
  destruct (split ":" s) as [|host [|port [|db [|x l]]]]; try reflexivity.
  cbn in Hlen. lia.
Qed.

(** X10.  [parse_connection_string] never raises the configuration
    error that its handler is written to raise: a string is accepted
    only if it has exactly two colons, and every string with another
    number of colons is answered with [NameError]. *)
Theorem parse_connection_string_rejections :
  (forall v msg, DefaultClient.parse_connection_string v <> Err (ImproperlyConfigured msg))
  /\ (forall s r, DefaultClient.parse_connection_string (PyStr s) = Ok r ->
                  count_char ":" s = 2%nat)
  /\ (forall s, count_char ":" s <> 2%nat ->
                DefaultClient.parse_connection_string (PyStr s)
                = Err (NameError "connection_string")).
Proof.
  split.
  { intros v msg.
    destruct (parse_connection_string_errors v) as [[r ->] | [-> | ->]]; discriminate. }
  split; [|exact parse_needs_two_colons].
  intros s r Hr. destruct (decide (count_char ":" s = 2%nat)) as [|Hne]; [assumption|].
  rewrite (parse_needs_two_colons s Hne) in Hr. discriminate.
Qed.

(** X11.  For three fields without colon joined by colons, with an
    integer database field: when the host is not [unix] the port must
    be an integer and is returned as one, otherwise the string is
    answered with [NameError]; when the host is [unix] the middle field
    is the socket path and is returned as it is. *)
Theorem parse_connection_string_fields host port db d :
  ~ occurs ":"%char host -> ~ occurs ":"%char port -> ~ occurs ":"%char db ->
  int_of_string db = Some d ->
  let s := host +:+ String ":" (port +:+ String ":" db) in
  (host = "unix" ->
     DefaultClient.parse_connection_string (PyStr s) = Ok ("unix", PyStr port, d))
  /\ (forall p, host <> "unix" -> int_of_string port = Some p ->
        DefaultClient.parse_connection_string (PyStr s) = Ok (host, PyInt p, d))
  /\ (host <> "unix" -> int_of_string port = None ->
        DefaultClient.parse_connection_string (PyStr s)
        = Err (NameError "connection_string")).
Proof.
  intros Hh Hp Hd Hdb s.
  assert (Hsplit : split ":" s = [host; port; db]).
  { unfold s. now rewrite !split_field, split_whole. }
  unfold DefaultClient.parse_connection_string. rewrite Hsplit.
  split; [|split].
  - intros ->. cbn. now rewrite Hdb.
  - intros p Hne Hport. rewrite (proj2 (String.eqb_neq _ _) Hne). cbn.
    now rewrite Hport, Hdb.
  - intros Hne Hport. rewrite (proj2 (String.eqb_neq _ _) Hne). cbn.
    now rewrite Hport.
Qed.

Lemma split_max_field (sep : ascii) (n : nat) (a b : string) :
  ~ occurs sep a ->
  split_max sep (S n) (a +:+ String sep b) = a :: split_max sep n b.
Proof.
  induction a as [|c a IH]; intros Hn.
  - change ("" +:+ ?x) with x. cbn. now rewrite Ascii.eqb_refl.
  - rewrite app_cons. specialize (IH (occurs_tail _ _ _ Hn)).
    cbn in *. rewrite Ascii.eqb_sym, (eqb_other _ _ _ Hn). now rewrite IH.
Qed.

Lemma third_field_join3 (t : string * string * string) :
  ~ occurs ":"%char t.1.1 -> ~ occurs ":"%char t.1.2 ->
  third_field (join3 t) = Some t.2.
Proof.
  intros H1 H2. unfold third_field, join3.
  now rewrite !split_max_field.
Qed.

Lemma length_split_max (sep : ascii) (n : nat) (s : string) :
  (length (split_max sep n s) <= S (count_char sep s))%nat.
Proof.
  revert s. induction n as [|n IH]; intros s; [cbn; lia|].
  induction s as [|c s IHs]; [cbn; lia|].
  cbn [count_char]. 
  change (split_max sep (S n) (String c s))
    with (if Ascii.eqb c sep then EmptyString :: split_max sep n s
          else match split_max sep (S n) s with
               | h :: t => String c h :: t
               | [] => [String c EmptyString]
               end).
  destruct (Ascii.eqb c sep).
  - cbn [length]. specialize (IH s). lia.
  - destruct (split_max sep (S n) s) as [|h t]; cbn [length] in *; lia.
Qed.

(** X12.  The keys that [keys] reports are the user keys: when every
    key in the answer of the connection is a prefix and a version
    without colon and a user key, joined by colons, the result holds
    exactly the user keys, a user key with colons included, each once.
    A key in the answer with fewer than two colons makes the call fail
    (with [IndexError]). *)
Theorem keys_result_user_keys :
  (forall ts : list (string * string * string),
      (forall t, t ∈ ts -> ~ occurs ":"%char t.1.1 /\ ~ occurs ":"%char t.1.2) ->
      keys_result (join3 <$> ts) = Some (list_to_set (snd <$> ts)))
  /\ (forall reply x,
      x ∈ reply -> (count_char ":" x < 2)%nat -> keys_result reply = None).
Proof.
  split.
  - intros ts Hts. unfold keys_result.
    assert (Hmap : mapM third_field (join3 <$> ts) = Some (snd <$> ts)).
    { induction ts as [|t ts IH]; [reflexivity|].
      cbn [fmap list_fmap mapM]. 
      destruct (Hts t (list_elem_of_here _ _)) as [H1 H2].
      rewrite (third_field_join3 t H1 H2). cbn.
      rewrite IH by (intros t' Ht'; apply Hts; now right). reflexivity. }
    now rewrite Hmap.
  - intros reply x Hx Hcount. unfold keys_result.
    assert (Hnone : third_field x = None).
    { unfold third_field. apply lookup_ge_None.
      pose proof (length_split_max ":" 2 x). lia. }
    assert (Hmap : mapM third_field reply = None).
    { induction reply as [|y reply IH]; [now apply elem_of_nil in Hx|].
      cbn [mapM]. apply elem_of_cons in Hx as [<-|Hx].
      - now rewrite Hnone.
      - rewrite (IH Hx). now destruct (third_field y). }
    now rewrite Hmap.
Qed.

(** ** The operations of the sharded client *)

Lemma redis_asked_ne c c' cmd st : c <> c' -> redis (asked c cmd st) !!! c' = redis st !!! c'.
Proof. apply redis_commit_ne. Qed.

Lemma redis_stored_ne c c' k v e st :
  c <> c' -> redis (stored c k v e st) !!! c' = redis st !!! c'.
Proof. apply redis_commit_ne. Qed.

Section shards.
Context `{imports}.

(** [incr_version] of the base class on a connection that is up. *)
Lemma incr_version_healthy st k delta version client c :
  connection_of st client = Some c -> healthy st c ->
  let b := _backend (self st) in
  let ver := default (backend_version b) version in
  let old := full_key b k (Some ver) in
  let new := new_key_of b k (ver + delta) in
  DefaultClient.incr_version k delta version client st
  = let st2 := asked c (TTL old) (asked c (GET old) st) in
    match decoded (db st c !! old) PyNone with
    | Ok PyNone => Raise (not_found (str k)) st2
    | Ok v =>
        let st3 := stored c new (pickle_dumps v (_pickle_version (self st)))
                     (expiry_of_timeout b (db st c !! old ≫= expiry)) st2 in
        Return (ver + delta) (commit c (DEL [old]) (delete old (db st3 c)) st3)
    | Err e => Raise e (asked c (GET old) st)
    end.
Proof.
  intros Hc Hh b ver old new.
  unfold DefaultClient.incr_version, bind.
  rewrite (client_or_default_connection _ _ _ Hc). cbn [get_self].
  fold b ver. rewrite make_key_run. fold b old.
  rewrite (get_healthy _ _ _ _ _ c) by (try reflexivity; assumption).
  cbn [full_key]. fold old.
  destruct (decoded (db st c !! old) PyNone) as [v|e]; [|reflexivity].
  unfold interrumped. cbn [str]. rewrite ttl_healthy by now apply healthy_asked.
  rewrite db_asked.
  assert (Hnew : forall st', self st' = self st ->
    match k with
    | CacheKey s => DefaultClient.make_key (Raw (original_key s)) (Some (ver + delta))
    | Raw _ => DefaultClient.make_key k (Some (ver + delta))
    end st' = Return (CacheKey new) st').
  { intros st' Hs. unfold new, new_key_of, b. rewrite <- Hs. now destruct k. }
  destruct v; try reflexivity;
    rewrite Hnew by reflexivity;
    rewrite (set_healthy _ _ _ _ _ _ c)
      by (try reflexivity; now apply healthy_asked, healthy_asked);
    rewrite (delete_healthy _ _ _ _ c)
      by (try reflexivity; now apply healthy_stored, healthy_asked, healthy_asked);
    reflexivity.
Qed.

(** X13.  The sharded [set] and [get] work on the shard that owns the
    key, and on no other: [set] stores the value there, the following
    [get] returns it, the only commands sent are the one of [set] and
    the GET, both on that shard, and every other connection is as
    before. *)
Theorem sharded_set_then_get st k v timeout version c default :
  let b := _backend (self st) in
  let fk := full_key b k version in
  let bytes := pickle_dumps v (_pickle_version (self st)) in
  shard_for (self st) fk = Some c -> healthy st c ->
  pickle_loads bytes = Ok v ->
  exists st1 st2,
    ShardClient.set k v timeout version None st = Return true st1
    /\ ShardClient.get k default version None st1 = Return v st2
    /\ commands st2 c
       = commands st c ++ [set_command fk bytes (expiry_of_timeout b timeout); GET fk]
    /\ forall c', c' <> c -> redis st2 !!! c' = redis st !!! c'.
Proof.
  intros b fk bytes Hshard Hh Hv. eexists _, _. split.
  { unfold ShardClient.set, bind. rewrite make_key_run. fold b fk.
    rewrite (get_server_run _ _ c) by exact Hshard.
    apply (set_healthy st (CacheKey fk) v timeout version (Some c) c);
      [reflexivity|assumption]. }
  split.
  { unfold ShardClient.get, bind. rewrite make_key_run.
    cbn [self stored commit]. fold b fk.
    rewrite (get_server_run _ _ c) by exact Hshard.
    rewrite (get_healthy _ _ _ _ _ c) by (first [reflexivity | now apply healthy_stored]).
    cbn [full_key]. rewrite db_stored, lookup_insert_eq. cbn [decoded value].
    fold bytes. rewrite Hv. reflexivity. }
  split.
  { unfold asked, stored. rewrite !commands_commit, <- app_assoc. reflexivity. }
  intros c' Hne. rewrite redis_asked_ne, redis_stored_ne by congruence. reflexivity.
Qed.

(** X14.  The sharded [add] drops its [timeout]: whatever timeout the
    caller gives, a key that was absent is stored with the default
    timeout of the backend. *)
Theorem sharded_add_ignores_timeout st k v timeout version c :
  let b := _backend (self st) in
  let fk := full_key b k version in
  shard_for (self st) fk = Some c -> healthy st c ->
  db st c !! fk = None ->
  exists st1,
    ShardClient.add k v timeout version None st = Return true st1
    /\ db st1 c !! fk
       = Some {| value := pickle_dumps v (_pickle_version (self st));
                 expiry := expiry_of_timeout b None |}.
Proof.
  intros b fk Hshard Hh Habs. eexists. split.
  { unfold ShardClient.add, bind. rewrite make_key_run. fold b fk.
    rewrite (get_server_run _ _ c) by exact Hshard.
    unfold DefaultClient.add, bind. cbn [DefaultClient.client_or_default ret].
    rewrite make_key_run. cbn [full_key str]. unfold interrumped.
    rewrite exists_healthy, Habs by assumption.
    rewrite bool_decide_eq_false_2 by (intros [? [=]]).
    apply (set_healthy _ (CacheKey fk) v None None (Some c) c);
      [reflexivity|now apply healthy_asked]. }
  rewrite db_stored. apply lookup_insert_eq.
Qed.

(** X15.  On a sharded client, which has no cached connection of its
    own, [incr] works on the owning shard but [decr] never does: its
    existence test goes through [self.has_key] without the shard, that
    is through the property [client], and raises before anything is
    sent, also for a key that exists. *)
Theorem sharded_decr_always_raises st k delta version c e n :
  let b := _backend (self st) in
  let fk := full_key b k version in
  _client (self st) = None ->
  shard_for (self st) fk = Some c -> healthy st c ->
  db st c !! fk = Some e -> pickle_loads (value e) = Ok (PyInt n) ->
  (exists st1,
     ShardClient.incr k delta version None st = Return (PyInt (n + delta)) st1
     /\ db st1 c !! fk
        = Some {| value := pickle_dumps (PyInt (n + delta)) (_pickle_version (self st));
                  expiry := expiry_of_timeout b None |})
  /\ ShardClient.decr k delta version None st
     = Raise (connect_error (_server (self st))) st.
Proof.
  intros b fk Hnone Hshard Hh He Hn. split.
  - eexists. split.
    { unfold ShardClient.incr, bind. rewrite make_key_run. fold b fk.
      rewrite (get_server_run _ _ c) by exact Hshard.
      rewrite (incr_healthy _ _ _ _ (Some c) c) by (first [reflexivity|assumption]).
      cbn [full_key]. rewrite He, bool_decide_eq_true_2 by eauto.
      cbn [decoded]. rewrite Hn. reflexivity. }
    rewrite db_stored. apply lookup_insert_eq.
  - unfold ShardClient.decr, bind. rewrite make_key_run. fold b fk.
    rewrite (get_server_run _ _ c) by exact Hshard.
    unfold DefaultClient.decr, bind. cbn [DefaultClient.client_or_default ret].
    rewrite make_key_run. unfold DefaultClient.has_key, bind.
    cbn [DefaultClient.client_or_default]. now rewrite client_uncached.
Qed.

(** X16.  The sharded [incr_version] stores the value for the new
    version on the shard of the old key.  When the ring gives the new
    versioned key to another shard, which has no entry for it, the
    value is no longer found: after the call, the sharded [get] at the
    new version returns the default. *)
Theorem sharded_incr_version_leaves_value_behind st s delta version c c' e v dflt :
  let b := _backend (self st) in
  let ver := default (backend_version b) version in
  let old := backend_make_key b s version in
  let new := backend_make_key b s (Some (ver + delta)) in
  original_key old = s ->
  shard_for (self st) old = Some c -> healthy st c ->
  db st c !! old = Some e -> pickle_loads (value e) = Ok v -> v <> PyNone ->
  new <> old ->
  shard_for (self st) new = Some c' -> c' <> c -> healthy st c' ->
  db st c' !! new = None ->
  exists st1 st2,
    ShardClient.incr_version (Raw s) delta version None st = Return (ver + delta) st1
    /\ db st1 c !! new
       = Some {| value := pickle_dumps v (_pickle_version (self st));
                 expiry := expiry_of_timeout b (expiry e) |}
    /\ db st1 c !! old = None
    /\ ShardClient.get (Raw s) dflt (Some (ver + delta)) None st1
       = Return dflt st2.
Proof.
  intros b ver old new Horig Hshard Hh He Hv Hnone Hne Hshard' Hcc Hh' Habs.
  set (bytes := pickle_dumps v (_pickle_version (self st))).
  set (kept := expiry_of_timeout b (expiry e)).
  set (st3 := stored c new bytes kept (asked c (TTL old) (asked c (GET old) st))).
  set (st1 := commit c (DEL [old]) (delete old (db st3 c)) st3).
  assert (Hdb : db st1 c = delete old (<[new := {| value := bytes; expiry := kept |}]> (db st c))).
  { unfold st1, st3. now rewrite db_commit, db_stored, !db_asked. }
  assert (Hother : redis st1 !!! c' = redis st !!! c').
  { unfold st1, st3. rewrite redis_commit_ne, redis_stored_ne, !redis_asked_ne by congruence.
    reflexivity. }
  exists st1. eexists. split.
  { unfold ShardClient.incr_version, bind. rewrite make_key_run.
    cbn [full_key]. fold b old.
    rewrite (get_server_run _ _ c) by exact Hshard.
    rewrite (incr_version_healthy _ _ _ _ (Some c) c) by (first [reflexivity|assumption]).
    cbn [full_key new_key_of]. fold b old. rewrite He. cbn [decoded]. rewrite Hv.
    cbn [mbind option_bind]. rewrite Horig. fold ver new bytes kept st3 st1.
    now destruct v. }
  rewrite Hdb. split.
  { rewrite lookup_delete_ne by congruence. apply lookup_insert_eq. }
  split; [apply lookup_delete_eq|].
  unfold ShardClient.get, bind. rewrite make_key_run.
  cbn [full_key self st1 st3 stored asked commit]. fold b new.
  rewrite (get_server_run _ _ c') by exact Hshard'.
  rewrite (get_healthy _ _ _ _ _ c')
    by (first [reflexivity | unfold healthy; rewrite Hother; exact Hh']).
  cbn [full_key]. unfold db at 1. rewrite Hother. fold (db st c'). rewrite Habs.
  reflexivity.
Qed.

End shards.

Section shard_deletes.
Context `{imports}.

(** The sharded [delete] with the shard given. *)
Lemma sharded_delete_run st fk c :
  healthy st c ->
  ShardClient.delete (CacheKey fk) None (Some c) st
  = Return tt (commit c (DEL [fk]) (delete fk (db st c)) st).
Proof.
  intros Hh. cbn [ShardClient.delete].
  now rewrite (delete_healthy st (CacheKey fk) None (Some c) c).
Qed.

Lemma sharded_delete_loop_run (fks : list string) :
  forall st,
    (forall fk, fk ∈ fks -> exists c, shard_for (self st) fk = Some c /\ healthy st c) ->
    exists st',
      ShardClient.delete_many_loop (CacheKey <$> fks) st = Return tt st'
      /\ self st' = self st
      /\ (forall c, healthy st c -> healthy st' c)
      /\ forall c fk,
           db st' c !! fk
           = if decide (fk ∈ fks /\ shard_for (self st) fk = Some c) then None
             else db st c !! fk.
Proof.
  induction fks as [|fk0 fks IH]; intros st Hshard.
  - exists st. split; [reflexivity|]. split; [reflexivity|]. split; [tauto|].
    intros c fk. rewrite decide_False; [reflexivity|].
    intros [Hin _]. now apply elem_of_nil in Hin.
  - destruct (Hshard fk0 (list_elem_of_here _ _)) as (c0 & Hc0 & Hh0).
    set (st1 := commit c0 (DEL [fk0]) (delete fk0 (db st c0)) st).
    destruct (IH st1) as (st' & Hrun & Hself & Hhealthy & Hdb).
    { intros fk Hfk. destruct (Hshard fk (list_elem_of_further _ _ _ Hfk)) as (c & Hc & Hh).
      exists c. split; [exact Hc|].
      destruct (decide (c0 = c)) as [<-|Hne]; [now apply healthy_commit|].
      unfold healthy, st1. now rewrite redis_commit_ne. }
    exists st'. split.
    { cbn [fmap list_fmap ShardClient.delete_many_loop]. unfold bind.
      rewrite (get_server_run _ _ c0) by exact Hc0.
      rewrite sharded_delete_run by assumption. exact Hrun. }
    split; [exact Hself|]. split.
    { intros c Hh. apply Hhealthy.
      destruct (decide (c0 = c)) as [<-|Hne]; [now apply healthy_commit|].
      unfold healthy, st1. now rewrite redis_commit_ne. }
    intros c fk. rewrite Hdb. cbn [self st1 commit].
    assert (Hdb1 : db st1 c !! fk
                   = if decide (fk = fk0 /\ c = c0) then None else db st c !! fk).
    { destruct (decide (c0 = c)) as [<-|Hne].
      - unfold st1. rewrite db_commit.
        destruct (decide (fk = fk0)) as [->|Hfk].
        + rewrite lookup_delete_eq. now rewrite decide_True.
        + rewrite lookup_delete_ne by congruence. rewrite decide_False; [reflexivity|tauto].
      - unfold db, st1. rewrite redis_commit_ne by assumption.
        rewrite decide_False; [reflexivity|]. intros [_ ->]. contradiction. }
    rewrite Hdb1.
    destruct (decide (fk ∈ fks /\ shard_for (self st) fk = Some c)) as [[Hin Hs]|Hn].
    + rewrite decide_True; [reflexivity|]. split; [now right|assumption].
    + destruct (decide (fk = fk0 /\ c = c0)) as [[-> ->]|Hn0].
      * rewrite decide_True; [reflexivity|]. split; [now left|assumption].
      * rewrite decide_False; [reflexivity|].
        intros [Hin Hs]. apply elem_of_cons in Hin as [->|Hin]; [|tauto].
        apply Hn0. split; [reflexivity|]. congruence.
Qed.

(** X17.  The sharded [delete_many] deletes every key on the shard that
    owns it: afterwards no requested key exists on its shard, and an
    entry of any connection that is not a requested key on its owning
    shard is as before. *)
Theorem sharded_delete_many_removes st ks version :
  let fk k := full_key (_backend (self st)) k version in
  (forall k, k ∈ ks -> exists c, shard_for (self st) (fk k) = Some c /\ healthy st c) ->
  exists st',
    ShardClient.delete_many ks version st = Return tt st'
    /\ (forall k c, k ∈ ks -> shard_for (self st) (fk k) = Some c ->
                    db st' c !! fk k = None)
    /\ (forall c key',
          ~ (key' ∈ fk <$> ks /\ shard_for (self st) key' = Some c) ->
          db st' c !! key' = db st c !! key').
Proof.
  intros fk Hshard.
  destruct (sharded_delete_loop_run (fk <$> ks) st) as (st' & Hrun & _ & _ & Hdb).
  { intros x Hx. apply list_elem_of_fmap_1 in Hx as (k & -> & Hk). now apply Hshard. }
  exists st'. split.
  { unfold ShardClient.delete_many, bind. rewrite make_keys_run. fold fk.
    rewrite <- list_fmap_compose in Hrun. exact Hrun. }
  split.
  - intros k c Hk Hc. rewrite Hdb, decide_True; [reflexivity|].
    split; [now apply list_elem_of_fmap_2|assumption].
  - intros c key' Hn. now rewrite Hdb, decide_False.
Qed.

End shard_deletes.

(** ** Construction of the master-slave client *)

Section master_slave.
Context `{MasterSlaveClient.collaborators}.

Lemma first_items_wrapped (l : list setting) :
  MasterSlaveClient.first_items ((fun y => STuple [y; SNone]) <$> l)
  = MasterSlaveClient.Done l.
Proof.
  induction l as [|x l IH]; [reflexivity|].
  cbn [fmap list_fmap MasterSlaveClient.first_items MasterSlaveClient.item0
       MasterSlaveClient.and_then].
  now rewrite IH.
Qed.

(** A connection setting that is a string ends the loop of [connect]
    with an exception: the string is taken apart into its characters,
    which are two names only for a string of two characters, and then
    the first character is no connection string. *)
Lemma connect_loop_string options (s : string) (l : list setting) :
  exists e, MasterSlaveClient.connect_loop options (SStr s :: l)
            = MasterSlaveClient.Fail (MasterSlaveClient.Raised e)
            /\ (e = ValueError "wrong number of values to unpack"
                \/ e = NameError "connection_string").
Proof.
  cbn [MasterSlaveClient.connect_loop]. unfold MasterSlaveClient.unpack2.
  cbn [MasterSlaveClient.elements MasterSlaveClient.and_then].
  destruct s as [|a [|b [|c s]]]; [cbn; eauto..| |cbn; eauto].
  cbn [list_ascii_of_string fmap list_fmap MasterSlaveClient.and_then fst snd].
  rewrite parse_needs_two_colons; [cbn; eauto|].
  cbn. destruct (Ascii.eqb a ":"); discriminate.
Qed.

(** X18.  A [MasterSlaveClient] cannot be built from a server setting
    that names its first connection by a string: for a string, for a
    list or tuple of strings, and for a list or tuple of pairs of a
    string and a fallback, [__init__] raises. *)
Theorem master_slave_rejects_connection_strings server params backend :
  names_by_string server = true ->
  exists e, MasterSlaveClient.__init__ server params backend = MasterSlaveClient.Fail e.
Proof.
  intros Hs. unfold MasterSlaveClient.__init__.
  destruct (negb (MasterSlaveClient.truthy server)); [eauto|].
  cbn [MasterSlaveClient.iterate].
  assert (Hbody : exists e,
    MasterSlaveClient.connect (MasterSlaveClient.normalize server)
      (default ∅ (OPTIONS params)) = MasterSlaveClient.Fail e).
  { unfold MasterSlaveClient.connect.
    assert (Hfirst : (exists e, MasterSlaveClient.first_items
                                  (MasterSlaveClient.normalize server)
                                = MasterSlaveClient.Fail e)
                     \/ exists s l, MasterSlaveClient.first_items
                                      (MasterSlaveClient.normalize server)
                                    = MasterSlaveClient.Done (SStr s :: l)).
    { destruct server as [| |s|[|x l]|[|x l]]; try discriminate;
        try (right; exists s, []; reflexivity);
        cbn [names_by_string] in Hs;
        destruct x as [| |s|[|[| |s|?|?] l']|[|[| |s|?|?] l']]; try discriminate;
        cbn [MasterSlaveClient.normalize MasterSlaveClient.is_list_or_tuple];
        try (right; exists s, l;
             apply (first_items_wrapped (SStr s :: l)));
        cbn [MasterSlaveClient.first_items MasterSlaveClient.item0
             MasterSlaveClient.and_then];
        (destruct (MasterSlaveClient.first_items l) as [l''|e];
           [right; exists s, l''; reflexivity | left; exists e; reflexivity]). }
    destruct Hfirst as [[e ->] | (s & l & ->)]; [eauto|].
    cbn [MasterSlaveClient.and_then].
    destruct (connect_loop_string (default ∅ (OPTIONS params)) s l) as (e & -> & _).
    eauto. }
  destruct Hbody as [e ->]. cbn. eauto.
Qed.

(** X19.  Whenever [__init__] of [MasterSlaveClient] succeeds, however
    many connections it has made, the list of nodes is empty and the
    router is a [DummyRouter] made with no node: the generator of
    [connect] has been run to its end for [_serverdict] and yields
    nothing more for [_nodes]. *)
Theorem master_slave_router_is_dummy server params backend o :
  MasterSlaveClient.__init__ server params backend = MasterSlaveClient.Done o ->
  MasterSlaveClient._nodes o = []
  /\ MasterSlaveClient._router o
     = (MasterSlaveClient.DummyRouter, MasterSlaveClient._serverdict o, []).
Proof.
  unfold MasterSlaveClient.__init__.
  destruct (negb (MasterSlaveClient.truthy server)); [discriminate|].
  cbn [MasterSlaveClient.iterate].
  destruct (MasterSlaveClient.connect _ _) as [items|e]; [|discriminate].
  cbn [MasterSlaveClient.and_then fmap list_fmap].
  destruct (default ∅ (OPTIONS params) !! "PICKLE_VERSION") as [v|].
  - destruct (int v) as [n|[]]; cbn; try discriminate; intros [= <-]; now cbn.
  - intros [= <-]. now cbn.
Qed.

End master_slave.

Lemma master_slave_rejects_connection_strings_witness :
  exists e,
    @MasterSlaveClient.__init__ toy_collaborators
      (SList [STuple [SStr "127.0.0.1:6379:1"; SNone];
              STuple [SStr "127.0.0.1:6380:1"; SNone]])
      no_params (django_backend "" 300 1)
    = MasterSlaveClient.Fail e.
Proof.
  apply (@master_slave_rejects_connection_strings toy_collaborators). reflexivity.
Defined.

Example master_slave_string_server :
  @MasterSlaveClient.__init__ toy_collaborators (SStr "127.0.0.1:6379:1")
    no_params (django_backend "" 300 1)
  = MasterSlaveClient.Fail
      (MasterSlaveClient.Raised (ValueError "wrong number of values to unpack")).
Proof. reflexivity. Qed.

Lemma master_slave_router_is_dummy_witness :
  exists o,
    @MasterSlaveClient.__init__ toy_collaborators nested_servers
      no_params (django_backend "" 300 1)
    = MasterSlaveClient.Done o
    /\ MasterSlaveClient._serverdict o
       = {[ "127.0.0.1:6379:1" := 1%nat; "127.0.0.1:6380:2" := 2%nat ]}
    /\ MasterSlaveClient._nodes o = []
    /\ MasterSlaveClient._router o
       = (MasterSlaveClient.DummyRouter, MasterSlaveClient._serverdict o, []).
Proof.
  eexists. split; [reflexivity|]. split; [vm_compute; reflexivity|].
  apply (@master_slave_router_is_dummy toy_collaborators nested_servers no_params
           (django_backend "" 300 1)).
  reflexivity.
Defined.

(** ** Runs of the further properties *)

Lemma toy_loads_not_raw (bytes : string) : toy_loads bytes <> Err ConnectionError.
Proof.
  unfold toy_loads.
  destruct bytes as [|[[] [] [] [] [] [] [] []] [|c r]]; try discriminate;
    destruct (int_of_string _); discriminate.
Qed.

Lemma set_then_get_witness :
  exists st1 st2 st3,
    @DefaultClient.set toy_imports (Raw "k") (PyStr "v") (Some 60) None None (cached_state [])
    = Return true st1
    /\ @DefaultClient.get toy_imports (Raw "k") PyNone None None st1 = Return (PyStr "v") st2
    /\ @DefaultClient.has_key toy_imports (Raw "k") None None st2 = Return true st3.
Proof.
  destruct (@set_then_get toy_imports (cached_state []) (Raw "k") (PyStr "v") (Some 60)
              None None 0%nat PyNone eq_refl eq_refl eq_refl)
    as (st1 & st2 & st3 & H1 & H2 & H3 & _).
  now exists st1, st2, st3.
Defined.

Lemma delete_then_get_witness :
  exists st1 st2 st3,
    @DefaultClient.delete toy_imports (Raw "k") None None
      (cached_state [(":1:k", {| value := "I7"; expiry := None |})])
    = Return tt st1
    /\ @DefaultClient.get toy_imports (Raw "k") (PyInt 0) None None st1
       = Return (PyInt 0) st2
    /\ @DefaultClient.has_key toy_imports (Raw "k") None None st2 = Return false st3.
Proof.
  destruct (@delete_then_get toy_imports
              (cached_state [(":1:k", {| value := "I7"; expiry := None |})])
              (Raw "k") None None 0%nat (PyInt 0) eq_refl eq_refl)
    as (st1 & st2 & st3 & H1 & H2 & H3 & _).
  now exists st1, st2, st3.
Defined.

Lemma incr_then_decr_witness :
  exists st1 st2,
    @DefaultClient.incr toy_imports (Raw "n") 4 None None
      (cached_state [(":1:n", {| value := "I5"; expiry := Some 10 |})])
    = Return (PyInt 9) st1
    /\ @DefaultClient.decr toy_imports (Raw "n") 4 None None st1 = Return (PyInt 5) st2
    /\ db st2 0%nat !! ":1:n" = Some {| value := "I5"; expiry := Some 300 |}.
Proof.
  destruct (@incr_then_decr toy_imports
              (cached_state [(":1:n", {| value := "I5"; expiry := Some 10 |})])
              (Raw "n") 4 None None 0%nat {| value := "I5"; expiry := Some 10 |} 5
              eq_refl (or_introl eq_refl) eq_refl eq_refl eq_refl eq_refl)
    as (st1 & st2 & H1 & H2 & H3).
  exists st1, st2. repeat split; try assumption. rewrite H3. reflexivity.
Defined.

Lemma get_many_in_request_order_witness :
  exists st',
    @DefaultClient.get_many toy_imports [Raw "n"; Raw "b"; Raw "a"; Raw "n"] None None
      (cached_state [(":1:a", {| value := "N"; expiry := None |});
                     (":1:n", {| value := "I5"; expiry := Some 10 |})])
    = Return [(Raw "n", PyInt 5); (Raw "a", PyNone)] st'.
Proof.
  destruct (@get_many_in_request_order toy_imports
              (cached_state [(":1:a", {| value := "N"; expiry := None |});
                             (":1:n", {| value := "I5"; expiry := Some 10 |})])
              [Raw "n"; Raw "b"; Raw "a"; Raw "n"] None None 0%nat eq_refl eq_refl)
    as (st' & Hrun & _).
  - intros k e Hk He.
    repeat (apply elem_of_cons in Hk as [->|Hk]); [| | | |now apply elem_of_nil in Hk];
      vm_compute in He; try discriminate; injection He as <-; eexists; reflexivity.
  - intros k1 k2 Hk1 Hk2 Hfk.
    repeat (apply elem_of_cons in Hk1 as [->|Hk1]); [| | | |now apply elem_of_nil in Hk1];
      (repeat (apply elem_of_cons in Hk2 as [->|Hk2]);
         [| | | |now apply elem_of_nil in Hk2]);
      try reflexivity; vm_compute in Hfk; discriminate.
  - exists st'. exact Hrun.
Defined.

Lemma delete_many_removes_witness :
  exists st',
    @DefaultClient.delete_many toy_imports [Raw "a"; Raw "n"] None None
      (cached_state [(":1:a", {| value := "N"; expiry := None |});
                     (":1:n", {| value := "I5"; expiry := Some 10 |});
                     (":1:z", {| value := "I1"; expiry := None |})])
    = Return tt st'
    /\ db st' 0%nat !! ":1:a" = None
    /\ db st' 0%nat !! ":1:z" = Some {| value := "I1"; expiry := None |}.
Proof.
  destruct (@delete_many_removes toy_imports
              (cached_state [(":1:a", {| value := "N"; expiry := None |});
                             (":1:n", {| value := "I5"; expiry := Some 10 |});
                             (":1:z", {| value := "I1"; expiry := None |})])
              [Raw "a"; Raw "n"] None None 0%nat eq_refl eq_refl)
    as (st' & Hrun & _ & Hgone & Hkept).
  exists st'. split; [exact Hrun|]. split.
  - apply (Hgone (Raw "a")). now left.
  - rewrite (Hkept ":1:z"); [reflexivity|].
    intros Hin. repeat (apply elem_of_cons in Hin as [Hin|Hin]; [discriminate Hin|]).
    now apply elem_of_nil in Hin.
Defined.

Lemma fresh_client_serves_no_call_witness :
  @DefaultClient.get toy_imports (Raw "k") PyNone None None
    {| self := fresh_client "127.0.0.1:6379:1" (django_backend "" 300 1);
       redis := {[ 0%nat := conn_with [] ]} |}
  = Raise (AttributeError "parser_class")
      {| self := fresh_client "127.0.0.1:6379:1" (django_backend "" 300 1);
         redis := {[ 0%nat := conn_with [] ]} |}.
Proof.
  apply (proj1 (proj2 (@fresh_client_serves_no_call toy_imports (PyStr "127.0.0.1:6379:1")
                         no_params (django_backend "" 300 1) _
                         {[ 0%nat := conn_with [] ]} eq_refl))).
Defined.

Lemma wrapped_operations_never_leak_witness :
  @DefaultClient.incr_version toy_imports (Raw "k") 1 None None
    (failing_state [(":1:k", {| value := "I7"; expiry := Some 100 |})])
  <> Raise ConnectionError
       (failing_state [(":1:k", {| value := "I7"; expiry := Some 100 |})]).
Proof.
  apply (proj2 (proj2 (proj2 (proj2 (proj2 (proj2 (proj2 (proj2
           (@wrapped_operations_never_leak toy_imports toy_loads_not_raw))))))))).
Defined.

Lemma incr_version_fails_after_write_witness :
  exists st',
    @DefaultClient.incr_version toy_imports (Raw "k") 1 None None
      (failing_state [(":1:k", {| value := "I7"; expiry := Some 100 |})])
    = Raise (ConnectionInterrumped 0%nat) st'
    /\ db st' 0%nat !! ":1:k" = Some {| value := "I7"; expiry := Some 100 |}
    /\ db st' 0%nat !! ":2:k" = Some {| value := "I7"; expiry := Some 100 |}.
Proof.
  destruct (@incr_version_fails_after_write toy_imports
              (failing_state [(":1:k", {| value := "I7"; expiry := Some 100 |})])
              (Raw "k") 1 None None 0%nat {| value := "I7"; expiry := Some 100 |} (PyInt 7)
              eq_refl eq_refl eq_refl eq_refl ltac:(discriminate)
              ltac:(vm_compute; discriminate))
    as (st' & Hrun & _ & Hold & Hnew).
  now exists st'.
Defined.

Lemma set_uses_configured_pickle_version_witness :
  _pickle_version protocol_two_client = 2
  /\ exists st',
       @DefaultClient.set toy_imports (Raw "k") (PyInt 1) None None (Some 0%nat)
         {| self := protocol_two_client; redis := {[ 0%nat := conn_with [] ]} |}
       = Return true st'
       /\ value <$> db st' 0%nat !! ":1:k" = Some (toy_dumps (PyInt 1) 2).
Proof.
  apply (@set_uses_configured_pickle_version toy_imports (PyStr "127.0.0.1:6379:1")
           protocol_two (django_backend "" 300 1) protocol_two_client
           {[ 0%nat := conn_with [] ]} (Raw "k") (PyInt 1) None None 0%nat
           eq_refl).
  reflexivity.
Defined.

Lemma parse_connection_string_rejections_witness :
  DefaultClient.parse_connection_string (PyStr "localhost:6379:1:0")
  = Err (NameError "connection_string").
Proof.
  apply (proj2 (proj2 parse_connection_string_rejections)). vm_compute. discriminate.
Defined.

Lemma parse_connection_string_fields_witness :
  DefaultClient.parse_connection_string (PyStr "unix:/var/run/redis.sock:2")
  = Ok ("unix", PyStr "/var/run/redis.sock", 2).
Proof.
  apply (proj1 (parse_connection_string_fields "unix" "/var/run/redis.sock" "2" 2
                  ltac:(no_occurrence) ltac:(no_occurrence) ltac:(no_occurrence) eq_refl)).
  reflexivity.
Defined.

Lemma keys_result_user_keys_witness :
  keys_result [":1:user:7"; ":1:plain"] = Some {[ "user:7"; "plain" ]}.
Proof.
  change (keys_result (join3 <$> [("", "1", "user:7"); ("", "1", "plain")])
          = Some {[ "user:7"; "plain" ]}).
  rewrite (proj1 keys_result_user_keys [("", "1", "user:7"); ("", "1", "plain")]).
  - vm_compute. reflexivity.
  - intros t Ht.
    repeat (apply elem_of_cons in Ht as [->|Ht]); [| |now apply elem_of_nil in Ht];
      split; no_occurrence.
Defined.

Lemma sharded_set_then_get_witness :
  exists st1 st2,
    @ShardClient.set toy_imports (Raw "b") (PyInt 3) None None None three_shards
    = Return true st1
    /\ @ShardClient.get toy_imports (Raw "b") PyNone None None st1 = Return (PyInt 3) st2
    /\ commands st2 2%nat = [SETEX ":1:b" "I3" 300; GET ":1:b"]
    /\ commands st2 0%nat = [] /\ commands st2 1%nat = [].
Proof.
  destruct (@sharded_set_then_get toy_imports three_shards (Raw "b") (PyInt 3) None None
              2%nat PyNone eq_refl eq_refl eq_refl)
    as (st1 & st2 & Hset & Hget & Hlog & Hother).
  exists st1, st2. repeat split; try assumption.
  - unfold commands. rewrite (Hother 0%nat) by discriminate. reflexivity.
  - unfold commands. rewrite (Hother 1%nat) by discriminate. reflexivity.
Defined.

Lemma sharded_add_ignores_timeout_witness :
  exists st1,
    @ShardClient.add toy_imports (Raw "b") (PyInt 3) (Some 5) None None three_shards
    = Return true st1
    /\ db st1 2%nat !! ":1:b" = Some {| value := "I3"; expiry := Some 300 |}.
Proof.
  apply (@sharded_add_ignores_timeout toy_imports three_shards (Raw "b") (PyInt 3)
           (Some 5) None 2%nat); reflexivity.
Defined.

Lemma sharded_decr_always_raises_witness :
  (exists st1,
     @ShardClient.incr toy_imports (Raw "c") 1 None None three_shards
     = Return (PyInt 8) st1
     /\ db st1 0%nat !! ":1:c" = Some {| value := "I8"; expiry := Some 300 |})
  /\ @ShardClient.decr toy_imports (Raw "c") 1 None None three_shards
     = Raise (AttributeError "parser_class") three_shards.
Proof.
  apply (@sharded_decr_always_raises toy_imports three_shards (Raw "c") 1 None 0%nat
           {| value := "I7"; expiry := Some 60 |} 7); reflexivity.
Defined.

Lemma sharded_incr_version_leaves_value_behind_witness :
  exists st1 st2,
    @ShardClient.incr_version toy_imports (Raw "a") 1 None None three_shards
    = Return 2 st1
    /\ db st1 1%nat !! ":2:a" = Some {| value := "Sx"; expiry := Some 300 |}
    /\ db st1 1%nat !! ":1:a" = None
    /\ @ShardClient.get toy_imports (Raw "a") PyNone (Some 2) None st1
       = Return PyNone st2.
Proof.
  apply (@sharded_incr_version_leaves_value_behind toy_imports three_shards "a" 1 None
           1%nat 2%nat {| value := "Sx"; expiry := None |} (PyStr "x") PyNone);
    try reflexivity; discriminate.
Defined.

Lemma sharded_delete_many_removes_witness :
  exists st',
    @ShardClient.delete_many toy_imports [Raw "a"; Raw "b"] None three_shards
    = Return tt st'
    /\ db st' 1%nat !! ":1:a" = None
    /\ db st' 0%nat !! ":1:c" = Some {| value := "I7"; expiry := Some 60 |}.
Proof.
  destruct (@sharded_delete_many_removes toy_imports three_shards [Raw "a"; Raw "b"] None)
    as (st' & Hrun & Hgone & Hkept).
  - intros k Hk.
    repeat (apply elem_of_cons in Hk as [->|Hk]); [| |now apply elem_of_nil in Hk].
    + exists 1%nat. split; reflexivity.
    + exists 2%nat. split; reflexivity.
  - exists st'. split; [exact Hrun|]. split.
    + apply (Hgone (Raw "a")); [now left|reflexivity].
    + rewrite Hkept; [reflexivity|].
      intros [Hin _].
      repeat (apply elem_of_cons in Hin as [Hin|Hin]; [discriminate Hin|]).
      now apply elem_of_nil in Hin.
Defined.

(** ** The shape of the hashed text *)

Lemma match_group_sound (t start stop g : string) :
  re_match [AnyStar; GroupClose; Lit "}"%char; AnyStar] t start stop = Some g ->
  exists x post,
    t = x +:+ String "}" post
    /\ g = String.substring 0 (String.length start - String.length (String "}" post)) start.
Proof.
  induction t as [|c t IH]; [discriminate|].
  rewrite re_match_star_step, re_match_close, re_match_lit_step, match_trailing_star.
  assert (Hhere : (if Ascii.eqb "}" c
                   then Some (String.substring 0
                                (String.length start - String.length (String c t)) start)
                   else None) = Some g ->
                  exists x post,
                    String c t = x +:+ String "}" post
                    /\ g = String.substring 0
                             (String.length start - String.length (String "}" post)) start).
  { destruct (Ascii.eqb_spec "}"%char c) as [<-|]; [|discriminate].
    intros [= <-]. now exists "", t. }
  destruct (is_newline c); [exact Hhere|].
  destruct (re_match _ t start stop) as [g'|] eqn:Hstar; [|exact Hhere].
  intros [= ->]. destruct (IH eq_refl) as (x & post & -> & Hg).
  exists (String c x), post. now rewrite app_cons.
Qed.

Lemma findhash_sound (s start stop g : string) :
  re_match _findhash s start stop = Some g ->
  exists pre post, s = pre +:+ String "{" (g +:+ String "}" post).
Proof.
  unfold _findhash. induction s as [|c s IH]; [discriminate|].
  rewrite re_match_star_step, re_match_lit_step, re_match_open.
  assert (Hhere : (if Ascii.eqb "{" c
                   then re_match [AnyStar; GroupClose; Lit "}"%char; AnyStar] s s stop
                   else None) = Some g ->
                  exists pre post, String c s = pre +:+ String "{" (g +:+ String "}" post)).
  { destruct (Ascii.eqb_spec "{"%char c) as [<-|]; [|discriminate].
    intros Hg. apply match_group_sound in Hg as (x & post & -> & ->).
    exists "", post. change ("" +:+ ?y) with y. do 2 f_equal.
    rewrite length_app.
    replace (String.length x + String.length (String "}" post)
             - String.length (String "}" post))%nat with (String.length x) by lia.
    now rewrite substring_prefix. }
  destruct (is_newline c); [exact Hhere|].
  destruct (re_match _ s start stop) as [g'|] eqn:Hstar; [|exact Hhere].
  intros [= ->]. destruct (IH eq_refl) as (pre & post & ->).
  exists (String c pre), post. now rewrite app_cons.
Qed.

(** X20.  The text that [get_server_name] hands to the ring is the
    whole key, or else a part of the key that stands between an opening
    brace and a closing brace. *)
Theorem hashed_text_is_key_or_tag (st : state) (ring : hash_ring) (k : key) :
  _ring (self st) = Some ring ->
  ShardClient.get_server_name k st = Return (get_node ring (hashed_key (str k))) st
  /\ (hashed_key (str k) = str k
      \/ exists pre post,
           str k = pre +:+ String "{" (hashed_key (str k) +:+ String "}" post)).
Proof.
  intros Hring. split.
  - unfold ShardClient.get_server_name, bind, get_self. now rewrite Hring.
  - unfold hashed_key, findhash_match.
    destruct (re_match _findhash (str k) "" "") as [g|] eqn:Hm; [|now left].
    right. now apply findhash_sound in Hm.
Qed.

Lemma hashed_text_is_key_or_tag_witness :
  ShardClient.get_server_name (CacheKey ":1:user{42}:name") three_shards
  = Return "n0" three_shards.
Proof.
  apply (proj1 (hashed_text_is_key_or_tag three_shards (toy_ring ["n0"; "n1"; "n2"])
                  (CacheKey ":1:user{42}:name") eq_refl)).
Defined.

Section arithmetic.
Context `{imports}.

(** X21.  [incr] on a key that holds [None] or a string raises
    [TypeError], on whatever connection the call uses: it has sent the
    existence test and the GET, and the database is as before.  [decr]
    does the same when the connection of the call is the cached one,
    where its existence test is made. *)
Theorem incr_decr_on_non_number st k delta version client c e v :
  connection_of st client = Some c -> healthy st c ->
  let fk := full_key (_backend (self st)) k version in
  db st c !! fk = Some e -> pickle_loads (value e) = Ok v ->
  (v = PyNone \/ exists s, v = PyStr s) ->
  (exists st1,
     DefaultClient.incr k delta version client st = Raise TypeError st1
     /\ db st1 c = db st c
     /\ commands st1 c = commands st c ++ [EXISTS fk; GET fk])
  /\ (_client (self st) = Some c ->
      exists st2,
        DefaultClient.decr k delta version client st = Raise TypeError st2
        /\ db st2 c = db st c
        /\ commands st2 c = commands st c ++ [EXISTS fk; GET fk]).
Proof.
  intros Hc Hh fk He Hv Hkind.
  assert (Hlog : commands (asked c (GET fk) (asked c (EXISTS fk) st)) c
                 = commands st c ++ [EXISTS fk; GET fk]).
  { unfold asked. rewrite !commands_commit, <- app_assoc. reflexivity. }
  split; [|intros Hcached];
    exists (asked c (GET fk) (asked c (EXISTS fk) st));
    [rewrite (incr_healthy _ _ _ _ _ c) by assumption
    |rewrite (decr_healthy _ _ _ _ _ c) by assumption];
    fold fk; rewrite He, bool_decide_eq_true_2 by eauto; cbn [decoded]; rewrite Hv;
    (destruct Hkind as [-> | [s ->]]; cbn [py_add py_sub];
     repeat split; try exact Hlog; now rewrite !db_asked).
Qed.

End arithmetic.

Lemma incr_decr_on_non_number_witness :
  let st := spare_state [(":1:k", {| value := "Sten"; expiry := None |})] in
  let st' := cached_state [(":1:k", {| value := "Sten"; expiry := None |})] in
  (exists st1, @DefaultClient.incr toy_imports (Raw "k") 1 None (Some 1%nat) st
               = Raise TypeError st1)
  /\ (exists st2, @DefaultClient.decr toy_imports (Raw "k") 1 None None st'
                  = Raise TypeError st2).
Proof.
  intros st st'. split.
  - destruct (proj1 (@incr_decr_on_non_number toy_imports st (Raw "k") 1 None (Some 1%nat)
                       1%nat {| value := "Sten"; expiry := None |} (PyStr "ten")
                       eq_refl eq_refl eq_refl eq_refl
                       (or_intror (ex_intro _ "ten" eq_refl))))
      as (st1 & H1 & _).
    now exists st1.
  - destruct (proj2 (@incr_decr_on_non_number toy_imports st' (Raw "k") 1 None None
                       0%nat {| value := "Sten"; expiry := None |} (PyStr "ten")
                       eq_refl eq_refl eq_refl eq_refl
                       (or_intror (ex_intro _ "ten" eq_refl))) eq_refl)
      as (st2 & H2 & _).
    now exists st2.
Defined.

(** * The existence test of [incr] and [decr] *)

Section existence_test.
Context `{imports}.

(** C7.  [incr] keeps to the claim on whatever connection the call
    uses, when it is up: on a key that does not exist it raises the
    not-found error, having sent the existence test only, and the
    database is as before; on a key that holds the integer [n] it stores
    [n + delta] under the key and returns it.  [decr] does the same, with
    [n - delta], when the connection of the call is the cached one.  Its
    existence test, [self.has_key(key)], is made without the [client]
    argument, on the cached connection: called with another connection
    that holds the key, [decr] raises the not-found error when the cached
    connection lacks the key, and nothing is sent to the connection of
    the call; called with a connection on a client without cached
    connection, it raises the error of the connection attempt. *)
Theorem incr_decr_existing_key st k delta version :
  let b := _backend (self st) in
  let fk := full_key b k version in
  let written (m : Z) :=
    {| value := pickle_dumps (PyInt m) (_pickle_version (self st));
       expiry := expiry_of_timeout b None |} in
  (forall client c,
     connection_of st client = Some c -> healthy st c ->
     (db st c !! fk = None ->
        exists st1,
          DefaultClient.incr k delta version client st = Raise (not_found fk) st1
          /\ db st1 c = db st c /\ commands st1 c = commands st c ++ [EXISTS fk])
     /\ (forall e n,
          db st c !! fk = Some e -> pickle_loads (value e) = Ok (PyInt n) ->
          exists st1,
            DefaultClient.incr k delta version client st = Return (PyInt (n + delta)) st1
            /\ db st1 c = <[fk := written (n + delta)]> (db st c)))
  /\ (forall client c,
     _client (self st) = Some c -> connection_of st client = Some c -> healthy st c ->
     (db st c !! fk = None ->
        exists st1,
          DefaultClient.decr k delta version client st = Raise (not_found fk) st1
          /\ db st1 c = db st c /\ commands st1 c = commands st c ++ [EXISTS fk])
     /\ (forall e n,
          db st c !! fk = Some e -> pickle_loads (value e) = Ok (PyInt n) ->
          exists st1,
            DefaultClient.decr k delta version client st = Return (PyInt (n - delta)) st1
            /\ db st1 c = <[fk := written (n - delta)]> (db st c)))
  /\ (forall c c0 e,
     _client (self st) = Some c0 -> c0 <> c -> healthy st c0 ->
     db st c0 !! fk = None -> db st c !! fk = Some e ->
     exists st1,
       DefaultClient.decr k delta version (Some c) st = Raise (not_found fk) st1
       /\ redis st1 !!! c = redis st !!! c
       /\ commands st1 c0 = commands st c0 ++ [EXISTS fk])
  /\ (forall c,
     _client (self st) = None ->
     DefaultClient.decr k delta version (Some c) st
     = Raise (connect_error (_server (self st))) st).
Proof.
  intros b fk written. split; [|split; [|split]].
  - intros client c Hc Hh.
    pose proof (incr_healthy st k delta version client c Hc Hh) as Hrun.
    cbv zeta in Hrun. fold b fk in Hrun. split.
    + intros Habs. eexists. rewrite Hrun, Habs.
      rewrite bool_decide_eq_false_2 by (intros [? [=]]).
      split; [reflexivity|]. split; [apply db_asked | apply commands_commit].
    + intros e n He Hn. eexists. rewrite Hrun, He.
      rewrite bool_decide_eq_true_2 by eauto. cbn [decoded]. rewrite Hn. cbn [py_add].
      split; [reflexivity|]. now rewrite db_stored, !db_asked.
  - intros client c Hcached Hc Hh.
    pose proof (decr_healthy st k delta version client c Hcached Hc Hh) as Hrun.
    cbv zeta in Hrun. fold b fk in Hrun. split.
    + intros Habs. eexists. rewrite Hrun, Habs.
      rewrite bool_decide_eq_false_2 by (intros [? [=]]).
      split; [reflexivity|]. split; [apply db_asked | apply commands_commit].
    + intros e n He Hn. eexists. rewrite Hrun, He.
      rewrite bool_decide_eq_true_2 by eauto. cbn [decoded]. rewrite Hn. cbn [py_sub].
      split; [reflexivity|]. now rewrite db_stored, !db_asked.
  - intros c c0 e Hcached Hne Hh0 Habs He. eexists.
    unfold DefaultClient.decr, bind.
    rewrite (client_or_default_connection _ _ c) by reflexivity.
    rewrite make_key_run.
    rewrite (has_key_healthy _ _ _ _ c0) by assumption.
    cbn [str full_key]. fold b fk. rewrite Habs.
    rewrite bool_decide_eq_false_2 by (intros [? [=]]). cbn [negb].
    split; [reflexivity|]. split; [now apply redis_asked_ne | apply commands_commit].
  - intros c Hnone. unfold DefaultClient.decr, bind.
    rewrite (client_or_default_connection _ _ c) by reflexivity.
    rewrite make_key_run. unfold DefaultClient.has_key, bind.
    cbn [DefaultClient.client_or_default].
    now rewrite (client_uncached _ Hnone).
Qed.

End existence_test.

Lemma incr_decr_existing_key_witness :
  let st := spare_state [(":1:n", {| value := "I5"; expiry := None |})] in
  exists st1 st2,
    @DefaultClient.incr toy_imports (Raw "n") 2 None (Some 1%nat) st = Return (PyInt 7) st1
    /\ db st1 1%nat !! ":1:n" = Some {| value := "I7"; expiry := Some 300 |}
    /\ @DefaultClient.decr toy_imports (Raw "n") 2 None (Some 1%nat) st
       = Raise (ValueError "Key ':1:n' not found") st2
    /\ redis st2 !!! 1%nat = redis st !!! 1%nat.
Proof.
  intros st.
  pose proof (@incr_decr_existing_key toy_imports st (Raw "n") 2 None) as (Hincr & _ & Hdecr & _).
  destruct (proj2 (Hincr (Some 1%nat) 1%nat eq_refl eq_refl)
              {| value := "I5"; expiry := None |} 5 eq_refl eq_refl)
    as (st1 & Hrun1 & Hdb1).
  destruct (Hdecr 1%nat 0%nat {| value := "I5"; expiry := None |} eq_refl
              ltac:(discriminate) eq_refl eq_refl eq_refl)
    as (st2 & Hrun2 & Hsame & _).
  exists st1, st2. split; [exact Hrun1|]. split; [rewrite Hdb1; reflexivity|].
  split; [exact Hrun2 | exact Hsame].
Defined.
